(** * openfn-devtools: the project spec generator and the release uploader

    A shallow embedding of the two scripts of [src/generate-project.js]:
    the interactive wizard that collects triggers, credentials and jobs
    and dumps them as YAML, and the [upload-release] script that derives a
    tag and a repository from a file name and uploads a build to a GitHub
    release.

    Conventions.
    - A JavaScript string is a [string]: a sequence of code units, here
      restricted to the code units below 256.
    - A JavaScript object used as a map is an association list in
      insertion order ([Js.obj]); [Js.obj_set] is [o[k] = v].
    - Console output, file writes and network requests are events of a
      trace; a run returns its trace and the exit code of the process. *)

From Stdlib Require Import String Ascii List ZArith Bool Arith Lia.
Import ListNotations.
Open Scope string_scope.
Open Scope nat_scope.

(* ===================================================================== *)
(** ** JavaScript values used by both scripts *)
(* ===================================================================== *)

Module Js.

(** The double quote, for the messages that carry one. *)
Definition dq : string := String (ascii_of_nat 34) EmptyString.

Definition code (c : ascii) : nat := nat_of_ascii c.

(** [\d] *)
Definition is_digit (c : ascii) : bool :=
  (48 <=? code c) && (code c <=? 57).

(** [\w]: ASCII letters, digits and the underscore. *)
Definition is_word (c : ascii) : bool :=
  ((65 <=? code c) && (code c <=? 90))
  || ((97 <=? code c) && (code c <=? 122))
  || is_digit c
  || (code c =? 95).

(** [\s] on code units below 256: TAB, LF, VT, FF, CR, SPACE, NBSP. *)
Definition is_space (c : ascii) : bool :=
  ((9 <=? code c) && (code c <=? 13)) || (code c =? 32) || (code c =? 160).

(** Truthiness of a string: only the empty string is falsy. *)
Definition truthy (s : string) : bool :=
  match s with EmptyString => false | String _ _ => true end.

(** [s.includes(sub)] *)
Fixpoint includes (sub s : string) : bool :=
  prefix sub s
  || match s with
     | EmptyString => false
     | String _ t => includes sub t
     end.

(** [a || b] on strings. *)
Definition or_else (a b : string) : string := if truthy a then a else b.

(** [s.toLowerCase()] on code units below 256. *)
Definition lower_char (c : ascii) : ascii :=
  if ((65 <=? code c) && (code c <=? 90))
     || ((192 <=? code c) && (code c <=? 222) && negb (code c =? 215))
  then ascii_of_nat (code c + 32)
  else c.

Fixpoint toLowerCase (s : string) : string :=
  match s with
  | EmptyString => EmptyString
  | String c t => String (lower_char c) (toLowerCase t)
  end.

(** [s.replace(/\s+/g, '-')]: every maximal run of white space becomes
    one hyphen.  [in_run] tells that the code unit before was white
    space, already replaced. *)
Fixpoint replace_runs (in_run : bool) (s : string) : string :=
  match s with
  | EmptyString => EmptyString
  | String c t =>
      if is_space c
      then if in_run then replace_runs true t
           else String "-" (replace_runs true t)
      else String c (replace_runs false t)
  end.

Definition replace_spaces (s : string) : string := replace_runs false s.

(** Whether some code unit of [s] satisfies [p]. *)
Fixpoint any_char (p : ascii -> bool) (s : string) : bool :=
  match s with
  | EmptyString => false
  | String c t => p c || any_char p t
  end.

(** Objects as maps: own enumerable string-keyed properties, in insertion
    order.  (JavaScript lists integer-like keys first; nothing here
    depends on where a key stands.) *)
Definition obj (V : Type) : Type := list (string * V).

Definition obj_keys {V} (o : obj V) : list string := map fst o.

Fixpoint obj_get {V} (k : string) (o : obj V) : option V :=
  match o with
  | [] => None
  | (k', v) :: t => if String.eqb k k' then Some v else obj_get k t
  end.

Fixpoint obj_put {V} (k : string) (v : V) (o : obj V) : obj V :=
  match o with
  | [] => [(k, v)]
  | (k', v') :: t =>
      if String.eqb k k' then (k', v) :: t else (k', v') :: obj_put k v t
  end.

(** [o[k] = v] on a plain object: an existing property keeps its place and
    takes the new value, a new one is appended.  Assigning to [__proto__]
    goes to the prototype setter and creates no own property. *)
Definition obj_set {V} (k : string) (v : V) (o : obj V) : obj V :=
  if String.eqb k "__proto__" then o else obj_put k v o.

(** [Object.keys(o).includes(k)] *)
Definition has_key {V} (k : string) (o : obj V) : bool :=
  existsb (String.eqb k) (obj_keys o).

End Js.

(* ===================================================================== *)
(** ** Regular expressions, as the uploader uses them *)
(* ===================================================================== *)

Module Regex.

(** The fragment of the regular expressions of the script: literals,
    character classes, a greedy [+] on a class, sequence, a capture group
    and [$]. *)
Inductive regex : Type :=
| Eps
| Lit (c : ascii)
| Class (p : ascii -> bool)
| Plus (p : ascii -> bool)
| Seq (r1 r2 : regex)
| Group (r : regex)
| EndOfInput.

Fixpoint lits (s : string) : regex :=
  match s with
  | EmptyString => Eps
  | String c t => Seq (Lit c) (lits t)
  end.

Section Matcher.
Variable R : Type.

(** [p+], greedy: take as many as possible, give back one at a time. *)
Fixpoint plus (p : ascii -> bool) (s : string) (k : string -> option R)
  : option R :=
  match s with
  | EmptyString => None
  | String c t =>
      if p c then
        match plus p t k with
        | Some r => Some r
        | None => k t
        end
      else None
  end.

(** What was consumed between [s] and its suffix [t]. *)
Definition consumed (s t : string) : string :=
  substring 0 (String.length s - String.length t) s.

(** Backtracking matcher in continuation-passing style: [k] is what is
    left to match, and gets the rest of the input and the groups closed so
    far. *)
Fixpoint run (r : regex) (s : string) (caps : list string)
  (k : string -> list string -> option R) : option R :=
  match r with
  | Eps => k s caps
  | Lit c =>
      match s with
      | String d t => if Ascii.eqb c d then k t caps else None
      | EmptyString => None
      end
  | Class p =>
      match s with
      | String d t => if p d then k t caps else None
      | EmptyString => None
      end
  | Plus p => plus p s (fun t => k t caps)
  | Seq r1 r2 => run r1 s caps (fun t caps' => run r2 t caps' k)
  | Group r1 => run r1 s caps (fun t caps' => k t (caps' ++ [consumed s t])%list)
  | EndOfInput =>
      match s with
      | EmptyString => k s caps
      | String _ _ => None
      end
  end.

End Matcher.

(** [s.match(r)] for a regular expression without the [g] flag: the
    leftmost match; the result lists the capture groups (element [n - 1]
    is [match[n]]), [None] is [null]. *)
Fixpoint exec (r : regex) (s : string) : option (list string) :=
  match run _ r s [] (fun _ caps => Some caps) with
  | Some caps => Some caps
  | None =>
      match s with
      | EmptyString => None
      | String _ t => exec r t
      end
  end.

(** [s.match(r)[1]]; [None] when the match is [null] (the index then
    throws a TypeError). *)
Definition match1 (r : regex) (s : string) : option string :=
  match exec r s with
  | Some caps => Some (nth 0 caps EmptyString)
  | None => None
  end.

End Regex.

(* ===================================================================== *)
(** ** The release uploader *)
(* ===================================================================== *)

Module Uploader.
Import Js Regex.

(** A value of [argv.i] as minimist builds it. *)
Inductive argval : Type :=
| ArgUndefined
| ArgBool (b : bool)
| ArgNumber (n : Z)
| ArgString (s : string).

Definition arg_truthy (a : argval) : bool :=
  match a with
  | ArgUndefined => false
  | ArgBool b => b
  | ArgNumber n => negb (n =? 0)%Z
  | ArgString s => truthy s
  end.

(** [argv.d || false] and [argv.u || false] are kept as their
    truthiness. *)
Record argv : Type := {
  arg_i : argval;
  arg_d : bool;
  arg_u : bool
}.

Record asset : Type := {
  asset_name : string;
  asset_size : Z;
  asset_id : Z
}.

Record release : Type := {
  release_id : Z;
  release_assets : list asset
}.

(** An error of the hosting API or of [fs]: its message and what the
    script tests on it, [e.code == 404] and [err.status == 'ENOENT']. *)
Record ext_error : Type := {
  ext_message : string;
  ext_code_404 : bool;
  ext_status_enoent : bool
}.

(** What the promise chain can be rejected with. *)
Inductive js_error : Type :=
| AlreadyExists (message : string)
| Error (message : string)
| External (e : ext_error).

Definition message_of (e : js_error) : string :=
  match e with
  | AlreadyExists m => m
  | Error m => m
  | External x => ext_message x
  end.

(** The world outside the script: the environment variable, the hosting
    API and the file system. *)
Record world : Type := {
  GH_TOKEN : option string;
  getReleaseByTag : string -> string -> string -> ext_error + release;
  deleteReleaseAsset : string -> string -> Z -> ext_error + unit;
  uploadReleaseAsset :
    string -> string -> string -> Z -> string -> ext_error + string;
  statSync : string -> ext_error + Z;
  readFileSync : string -> ext_error + string
}.

Inductive event : Type :=
| ReqGetReleaseByTag (owner repo tag : string)
| ReqDeleteReleaseAsset (owner repo : string) (asset_id : Z)
| ReqUploadReleaseAsset (owner repo name : string) (release_id : Z)
    (data : string)
| ConsoleLog (msg : string)
| ConsoleLogObj (e : ext_error)
| ConsoleError (msg : string)
| ConsoleErrorObj (e : js_error).

Definition is_request (e : event) : bool :=
  match e with
  | ReqGetReleaseByTag _ _ _
  | ReqDeleteReleaseAsset _ _ _
  | ReqUploadReleaseAsset _ _ _ _ _ => true
  | _ => false
  end.

Definition is_upload (e : event) : bool :=
  match e with ReqUploadReleaseAsset _ _ _ _ _ => true | _ => false end.

Definition is_delete (e : event) : bool :=
  match e with ReqDeleteReleaseAsset _ _ _ => true | _ => false end.

Definition requests (t : list event) : list event := filter is_request t.
Definition uploads (t : list event) : list event := filter is_upload t.
Definition deletes (t : list event) : list event := filter is_delete t.

(** A step of the promise chain: the events it emitted, and a rejection
    or a value. *)
Definition M (A : Type) : Type := (list event * (js_error + A))%type.

Definition ret {A} (a : A) : M A := ([], inr a).
Definition throw {A} (e : js_error) : M A := ([], inl e).
Definition emit (e : event) : M unit := ([e], inr tt).

Definition bind {A B} (m : M A) (f : A -> M B) : M B :=
  match m with
  | (t, inl e) => (t, inl e)
  | (t, inr a) => let (t', r) := f a in ((t ++ t')%list, r)
  end.

Notation "x <- m ;; k" := (bind m (fun x => k))
  (at level 61, m at next level, right associativity).
Notation "m ;;; k" := (bind m (fun _ => k))
  (at level 61, right associativity).

(** A call into [fs] or the API inside the chain: an error rejects. *)
Definition lift {A} (r : ext_error + A) : M A :=
  match r with
  | inl e => throw (External e)
  | inr a => ret a
  end.

Definition owner : string := "OpenFn".

(** [/(\d+\.\d+\.\d+)\.tgz$/] *)
Definition re_tag : regex :=
  Seq (Group (Seq (Plus is_digit) (Seq (Lit ".") (Seq (Plus is_digit)
        (Seq (Lit ".") (Plus is_digit))))))
      (Seq (lits ".tgz") EndOfInput).

(** [[\w-]] and [[\d\.]] *)
Definition is_word_or_dash (c : ascii) : bool := is_word c || Ascii.eqb c "-".
Definition is_digit_or_dot (c : ascii) : bool := is_digit c || Ascii.eqb c ".".

(** [/\/([\w-]+)-v[\d\.]+\.tgz$/] *)
Definition re_repo : regex :=
  Seq (Lit "/")
      (Seq (Group (Plus is_word_or_dash))
           (Seq (lits "-v")
                (Seq (Plus is_digit_or_dot) (Seq (lits ".tgz") EndOfInput)))).

(** Lines 322-323: the tag and the repository of a file name, [None]
    when indexing a [null] match throws. *)
Definition derive_target (file : string) : option (string * string) :=
  match match1 re_tag file with
  | None => None
  | Some v =>
      match match1 re_repo file with
      | None => None
      | Some repo => Some ("v" ++ v, repo)
      end
  end.

(** The shape the specification names for the file,
    [<repo>-v<major>.<minor>.<patch>.tgz]: a repository name without a
    slash, [-v], three dot-separated numbers and [.tgz], at the end of the
    path. *)
Definition not_slash (c : ascii) : bool := negb (Ascii.eqb c "/").

Definition re_spec_shape : regex :=
  Seq (Plus not_slash)
      (Seq (lits "-v")
           (Seq (Plus is_digit) (Seq (Lit ".") (Seq (Plus is_digit)
              (Seq (Lit ".") (Seq (Plus is_digit)
                 (Seq (lits ".tgz") EndOfInput))))))).

Definition spec_shape (file : string) : bool :=
  match exec re_spec_shape file with
  | Some _ => true
  | None => false
  end.

Section Run.
Variable a : argv.
Variable w : world.

Definition logError (e : js_error) : event :=
  if arg_d a then ConsoleErrorObj e else ConsoleError (message_of e).

Definition findBuildFor (repo tag : string) : M release :=
  emit (ReqGetReleaseByTag owner repo tag) ;;;
  match getReleaseByTag w owner repo tag with
  | inr r => ret r
  | inl e =>
      if ext_code_404 e
      then throw (Error (tag ++ " does not exist for repo: " ++ repo))
      else throw (External e)
  end.

(** [release.data.assets.filter((a) => a.name == 'build.tgz')[0]] *)
Definition existing_asset (r : release) : option asset :=
  hd_error
    (filter (fun x => String.eqb (asset_name x) "build.tgz") (release_assets r)).

Definition uploadUnlessExists (repo file : string) (r : release) : M unit :=
  let existing := existing_asset r in
  match existing with
  | Some ex =>
      localSize <- lift (statSync w file) ;;
      if (localSize =? asset_size ex)%Z
      then throw (AlreadyExists "Build already exists.")
      else if negb (arg_u a)
      then throw (AlreadyExists
        "Build exists but is a different size. Use -u option to update existing files.")
      else ret tt
  | None => ret tt
  end ;;;
  match existing with
  | Some ex =>
      if arg_u a
      then emit (ReqDeleteReleaseAsset owner repo (asset_id ex)) ;;;
           lift (deleteReleaseAsset w owner repo (asset_id ex))
      else ret tt
  | None => ret tt
  end ;;;
  emit (ConsoleLog "Uploading release asset.") ;;;
  data <- lift (readFileSync w file) ;;
  emit (ReqUploadReleaseAsset owner repo "build.tgz" (release_id r) data) ;;;
  match uploadReleaseAsset w owner repo "build.tgz" (release_id r) data with
  | inr url =>
      emit (ConsoleLog ("✓ Build uploaded as release asset: " ++ url))
  | inl err =>
      if ext_status_enoent err then throw (External err)
      else emit (ConsoleLogObj err) ;;; throw (Error "Upload Failed.")
  end.

Record outcome : Type := {
  trace : list event;
  exit_code : Z
}.

(** [console.log(e.message); process.exit(1)] of the outer [catch]. *)
Definition die (msg : string) : outcome :=
  {| trace := [ConsoleLog msg]; exit_code := 1 |}.

(** The handler of the chain: [logError(e)], then exit code 2 for an
    [AlreadyExists], 1 otherwise; a fulfilled chain leaves the code 0. *)
Definition settle (m : M unit) : outcome :=
  match m with
  | (t, inr _) => {| trace := t; exit_code := 0 |}
  | (t, inl e) =>
      {| trace := (t ++ [logError e])%list;
         exit_code := match e with AlreadyExists _ => 2 | _ => 1 end |}
  end.

(** The messages of the TypeErrors the engine throws; their text is the
    engine's. *)
Definition msg_not_a_function : string := "file.match is not a function".
Definition msg_null_index : string :=
  "Cannot read properties of null (reading '1')".

(** Lines 310-341. *)
Definition main : outcome :=
  match GH_TOKEN w with
  | None | Some EmptyString =>
      die "Github OAuth token not found, please set via GH_TOKEN=..."
  | Some _ =>
      if negb (arg_truthy (arg_i a))
      then die "Please specify file with -i <filename>."
      else
        match arg_i a with
        | ArgString file =>
            match match1 re_tag file with
            | None => die msg_null_index
            | Some v =>
                let tag := "v" ++ v in
                match match1 re_repo file with
                | None => die msg_null_index
                | Some repo =>
                    settle (r <- findBuildFor repo tag ;;
                            uploadUnlessExists repo file r)
                end
            end
        | _ => die msg_not_a_function
        end
  end.

End Run.

End Uploader.

(* ===================================================================== *)
(** ** The prompt package, as the wizard uses it *)
(* ===================================================================== *)

Module Prompt.
Import Js.

(** The wizard reads its answers through [prompt.get] of the npm package
    [prompt], which is not part of this repository.  This module follows
    [prompt.getInput] of that package for string properties:
    - a property whose [ask] returns false is not asked; its answer is
      [schema.default || ''] and nothing is remembered;
    - an empty line is replaced by the default, when there is one;
    - the line, unless empty, is what is validated ([against[propName] =
      line]); only after that assignment [before] rewrites [line];
    - a [required] property rejects a missing value, [conform] rejects a
      value it maps to false; a rejection logs [message] (or
      [Invalid input for <description>]) and asks again;
    - an accepted answer is remembered in the history (newest first, the
      last ten) and the rewritten line is returned.

    In the words of the package:
<<
      if (typeof prop.schema.ask === 'function' && !prop.schema.ask()) {
        return callback(null, prop.schema.default || '');
      }
      ...
        against[propName] = line;
      }
      if (prop && prop.schema.before) {
        line = prop.schema.before(line);
      }
      isValid = prompt._performValidation(name, prop, against, schema,
                                          line, callback);
      if (!isValid) {
        return prompt.getInput(prop, callback);
      }
      prompt._remember(propName, line);
      callback(null, line);
>> *)

Inductive event : Type :=
| Asked (description : string)
| Log (msg : string)
| LogError (msg : string)
| WriteFile (path data : string).

(** How an asynchronous step ends: fulfilled, rejected with an error of
    the given message, an exception outside every promise, or a model run
    that was cut short. *)
Inductive result (A : Type) : Type :=
| Ok (a : A)
| Rejected (message : string)
| Crashed (message : string)
| OutOfFuel.
Arguments Ok {A} a.
Arguments Rejected {A} message.
Arguments Crashed {A} message.
Arguments OutOfFuel {A}.

Definition history : Type := list (string * string).

(** [prompt.history(name)]: the newest remembered pair of that name. *)
Fixpoint history_value (name : string) (h : history) : option string :=
  match h with
  | [] => None
  | (p, v) :: t => if String.eqb p name then Some v else history_value name t
  end.

(** [prompt._remember], with [prompt.memory = 10]. *)
Definition remember (name value : string) (h : history) : history :=
  firstn 10 ((name, value) :: h).

Record schema : Type := {
  description : string;
  required : bool;
  default : option string;
  before : option (string -> list event * string);
  conform : option (string -> bool);
  message : option string;
  ask : option (history -> option bool)
}.

Definition default_or_empty (sch : schema) : string :=
  match default sch with
  | Some d => d
  | None => EmptyString
  end.

(** What [read] hands back for the typed line [l]. *)
Definition effective (sch : schema) (l : string) : string :=
  if truthy l then l else default_or_empty sch.

(** revalidator on [against]: [None] is a missing property. *)
Definition validate (sch : schema) (against : option string) : bool :=
  match against with
  | None => negb (required sch)
  | Some v =>
      match conform sch with
      | Some f => f v
      | None => true
      end
  end.

Definition apply_before (sch : schema) (line : string)
  : list event * string :=
  match before sch with
  | Some f => f line
  | None => ([], line)
  end.

Definition invalid_message (sch : schema) : string :=
  match message sch with
  | Some m => if truthy m then m else "Invalid input for " ++ description sch
  | None => "Invalid input for " ++ description sch
  end.

(** The state of a prompt session: the lines still to come on standard
    input, the history, and what was shown so far. *)
Record session : Type := {
  stdin : list string;
  hist : history;
  shown : list event
}.

Definition show (evs : list event) (s : session) : session :=
  {| stdin := stdin s; hist := hist s; shown := (shown s ++ evs)%list |}.

(** One reading of a property that is asked: [lines] is what standard
    input still holds.  A rejected answer asks again with the next line;
    a closed input cancels. *)
Fixpoint read_loop (name : string) (sch : schema) (h : history)
  (lines : list string) (acc : list event) : session * result string :=
  match lines with
  | [] =>
      ({| stdin := []; hist := h;
          shown := (acc ++ [Asked (description sch)])%list |},
       Rejected "canceled")
  | l :: rest =>
      let line := effective sch l in
      let against := if truthy line then Some line else None in
      let (notes, line') := apply_before sch line in
      let acc' := (acc ++ Asked (description sch) :: notes)%list in
      if validate sch against
      then ({| stdin := rest; hist := remember name line' h; shown := acc' |},
            Ok line')
      else read_loop name sch h rest
             (acc' ++ [LogError (invalid_message sch)])%list
  end.

(** [prompt.getInput] *)
Definition getInput (name : string) (sch : schema) (s : session)
  : session * result string :=
  match ask sch with
  | Some f =>
      match f (hist s) with
      | None => (s, Crashed "Cannot read properties of null (reading 'value')")
      | Some false => (s, Ok (or_else (default_or_empty sch) EmptyString))
      | Some true => read_loop name sch (hist s) (stdin s) (shown s)
      end
  | None => read_loop name sch (hist s) (stdin s) (shown s)
  end.

(** [prompt.get]: the properties in order, the answers assembled into one
    object; the first failure ends it. *)
Fixpoint get_from (props : list (string * schema)) (acc : obj string)
  (s : session) : session * result (obj string) :=
  match props with
  | [] => (s, Ok acc)
  | (name, sch) :: more =>
      match getInput name sch s with
      | (s', Ok line) => get_from more (obj_set name line acc) s'
      | (s', Rejected m) => (s', Rejected m)
      | (s', Crashed m) => (s', Crashed m)
      | (s', OutOfFuel) => (s', OutOfFuel)
      end
  end.

Definition get (props : list (string * schema)) (s : session)
  : session * result (obj string) :=
  get_from props [] s.

End Prompt.

(* ===================================================================== *)
(** ** The project spec generator *)
(* ===================================================================== *)

Module Generator.
Import Js Prompt.

(** [colors.brightCyan] *)
Definition esc : string := String (ascii_of_nat 27) EmptyString.
Definition brightCyan (s : string) : string :=
  esc ++ "[96m" ++ s ++ esc ++ "[39m".

Definition another (thing : string) : string * schema :=
  ("another",
   {| description :=
        brightCyan ("Would you like to add another " ++ thing ++ "? (y/n)");
      required := false;
      default := None;
      before := None;
      conform := None;
      message := Some ("please enter " ++ dq ++ "y" ++ dq ++ " or "
                       ++ dq ++ "n" ++ dq);
      ask := None |}).

(** [duplicateCheck] *)
Definition duplicateCheck {V} (val : string) (o : obj V) : bool :=
  negb (has_key val o).

(** What the [before] hook of a name logs for the line it rewrites. *)
Definition notice (line : string) : event :=
  Log ("We are replacing spaces with hyphens. The new name will be "
       ++ dq ++ replace_spaces line ++ dq ++ ".").

(** The [before] hook of a name. *)
Definition name_before (value : string) : list event * string :=
  if includes " " value
  then let safeName := replace_spaces value in ([notice value], safeName)
  else ([], value).

(** The [message] of a name. *)
Definition unique_message (thing : string) : string :=
  thing ++ " names must be unique; please try something else.".

(** [name(arr, thing)].  [arr] is the accumulator the closure of
    [conform] reads: the forms below are rebuilt from the current
    accumulator at each [prompt.get], as the closure sees every earlier
    assignment to the object it shares.  [nonce] is what [gfynonce]
    returned when the form was defined. *)
Definition name {V} (nonce : string) (arr : obj V) (thing : string)
  : string * schema :=
  ("name",
   {| description := brightCyan (thing ++ " name");
      required := true;
      default := Some (toLowerCase (nonce ++ "-" ++ thing));
      before := Some name_before;
      conform := Some (fun value => duplicateCheck value arr);
      message := Some (unique_message thing);
      ask := None |}).

Definition plain (descr : string) (dflt : option string) (req : bool)
  : schema :=
  {| description := brightCyan descr; required := req; default := dflt;
     before := None; conform := None; message := None; ask := None |}.

(** [() => prompt.history('type').value === v] *)
Definition type_is (v : string) (h : history) : option bool :=
  match history_value "type" h with
  | Some x => Some (String.eqb x v)
  | None => None
  end.

Definition asked_when (descr : string) (dflt : option string) (v : string)
  : schema :=
  {| description := brightCyan descr; required := false; default := dflt;
     before := None; conform := None; message := None;
     ask := Some (type_is v) |}.

Definition trigger_types : list string :=
  ["cron"; "message"; "success"; "failure"].

Definition type_message : string :=
  "please enter " ++ dq ++ "cron" ++ dq ++ ", " ++ dq ++ "message" ++ dq
  ++ ", " ++ dq ++ "success" ++ dq ++ ", or " ++ dq ++ "failure" ++ dq.

Definition type_field : schema :=
  {| description :=
       brightCyan "Trigger type (cron | message | success | failure)";
     required := true;
     default := Some "cron";
     before := None;
     conform := Some (fun value => existsb (String.eqb value) trigger_types);
     message := Some type_message;
     ask := None |}.

Definition criteria_default : string :=
  "{" ++ dq ++ "a" ++ dq ++ ": 1}".

Section Wizard.
(** What [gfynonce] returned for the three forms, [yaml.dump], and the
    file system. *)
Variables nonce_job nonce_trigger nonce_credential : string.
Variable dump :
  obj (obj string) -> obj string -> obj (obj string) -> string.
Variable readFileSync : string -> string + string.
Variable writeFileSync : string -> string -> option string.

Definition jobForm (jobs : obj (obj string)) : list (string * schema) :=
  [ name nonce_job jobs "Job";
    ("expression",
     plain "Path to the job (./my-job.js) or the expression itself" None true);
    ("adaptor", plain "Adaptor" (Some "@openfn/language-http") true);
    ("trigger", plain "Trigger" None true);
    ("credential", plain "Credential" None true);
    another "job" ].

Definition triggerForm (triggers : obj (obj string))
  : list (string * schema) :=
  [ name nonce_trigger triggers "Trigger";
    ("type", type_field);
    ("cron", asked_when "Trigger cron" (Some "* * * * *") "cron");
    ("criteria", asked_when "Message criteria" (Some criteria_default) "message");
    ("success", asked_when "Triggering job (on success)" None "success");
    ("failure", asked_when "Triggering job (on failure)" None "failure");
    another "trigger" ].

Definition credentialForm (credentials : obj string)
  : list (string * schema) :=
  [ name nonce_credential credentials "Credential";
    ("body", plain "Path to credential.json" None true);
    another "credential" ].

(** [removeFalsy] *)
Definition removeFalsy (o : obj string) : obj string :=
  fold_left
    (fun newObj prop =>
       match obj_get prop o with
       | Some v => if truthy v then obj_set prop v newObj else newObj
       | None => newObj
       end)
    (obj_keys o) [].

(** A property of an answer object; a missing one reads as the empty
    string here (every form answers all its properties). *)
Definition field (k : string) (o : obj string) : string :=
  match obj_get k o with
  | Some v => v
  | None => EmptyString
  end.

(** [const { name, another, ...rest } = answers] *)
Definition rest_of (o : obj string) : obj string :=
  filter
    (fun kv => negb (String.eqb (fst kv) "name" || String.eqb (fst kv) "another"))
    o.

(** [addJob]; [fuel] bounds the number of forms. *)
Fixpoint addJob (fuel : nat) (jobs : obj (obj string)) (s : session)
  : obj (obj string) * session * result unit :=
  match fuel with
  | 0 => (jobs, s, OutOfFuel)
  | S n =>
      match get (jobForm jobs) s with
      | (s', Ok answers) =>
          let jobs' := obj_set (field "name" answers) (rest_of answers) jobs in
          if String.eqb (field "another" answers) "y"
          then addJob n jobs' s'
          else (jobs', show [Log "OK. Jobs written."] s', Ok tt)
      | (s', Rejected m) => (jobs, s', Rejected m)
      | (s', Crashed m) => (jobs, s', Crashed m)
      | (s', OutOfFuel) => (jobs, s', OutOfFuel)
      end
  end.

(** [addTrigger] *)
Fixpoint addTrigger (fuel : nat) (triggers : obj (obj string)) (s : session)
  : obj (obj string) * session * result unit :=
  match fuel with
  | 0 => (triggers, s, OutOfFuel)
  | S n =>
      match get (triggerForm triggers) s with
      | (s', Ok answers) =>
          let triggers' :=
            obj_set (field "name" answers) (removeFalsy (rest_of answers))
              triggers in
          if String.eqb (field "another" answers) "y"
          then addTrigger n triggers' s'
          else (triggers', show [Log "OK. Triggers written."] s', Ok tt)
      | (s', Rejected m) => (triggers, s', Rejected m)
      | (s', Crashed m) => (triggers, s', Crashed m)
      | (s', OutOfFuel) => (triggers, s', OutOfFuel)
      end
  end.

(** [addCredential] *)
Fixpoint addCredential (fuel : nat) (credentials : obj string) (s : session)
  : obj string * session * result unit :=
  match fuel with
  | 0 => (credentials, s, OutOfFuel)
  | S n =>
      match get (credentialForm credentials) s with
      | (s', Ok answers) =>
          let credentials' :=
            obj_set (field "name" answers) (field "body" answers) credentials in
          if String.eqb (field "another" answers) "y"
          then addCredential n credentials' s'
          else (credentials', show [Log "OK. Credentials written."] s', Ok tt)
      | (s', Rejected m) => (credentials, s', Rejected m)
      | (s', Crashed m) => (credentials, s', Crashed m)
      | (s', OutOfFuel) => (credentials, s', OutOfFuel)
      end
  end.

(** Every form starts with a property that is always asked, so a form
    takes at least one line: this much fuel is never used up. *)
Definition enough (s : session) : nat := S (List.length (stdin s)).

(** [setDest] and [setType]: one property each. *)
Definition dest_field : schema :=
  plain "Where do you want to save the generated yaml?"
    (Some "./tmp/project.yaml") true.

Definition mode_field : schema :=
  {| description :=
       brightCyan
         ("Do you want to generate a monolith project.yaml or a URI-based project.yaml?"
          ++ String (ascii_of_nat 10) " (monolith | uri)");
     required := true;
     default := Some "uri";
     before := None;
     conform :=
       Some (fun value => existsb (String.eqb value) ["uri"; "monolith"]);
     message := None;
     ask := None |}.

Definition setDest (s : session) : session * result string :=
  match get [("dest", dest_field)] s with
  | (s', Ok answers) => (s', Ok (field "dest" answers))
  | (s', Rejected m) => (s', Rejected m)
  | (s', Crashed m) => (s', Crashed m)
  | (s', OutOfFuel) => (s', OutOfFuel)
  end.

Definition setType (s : session) : session * result string :=
  match get [("type", mode_field)] s with
  | (s', Ok answers) => (s', Ok (field "type" answers))
  | (s', Rejected m) => (s', Rejected m)
  | (s', Crashed m) => (s', Crashed m)
  | (s', OutOfFuel) => (s', OutOfFuel)
  end.

(** The variables of the script. *)
Record state : Type := {
  outputPath : string;
  type : string;
  jobs : obj (obj string);
  triggers : obj (obj string);
  credentials : obj string
}.

(** Lines 246-249: the [reduce] over the credential names.  [old] is the
    accumulator of paths, [acc] the object being built. *)
Fixpoint inline_credentials (old : obj string) (keys : list string)
  (acc : obj string) : result (obj string) :=
  match keys with
  | [] => Ok acc
  | key :: more =>
      match obj_get key old with
      | None => Rejected "The path argument must be of type string"
      | Some path =>
          match readFileSync path with
          | inl err => Rejected err
          | inr text => inline_credentials old more (obj_set key text acc)
          end
      end
  end.

(** An entry of the accumulator and the entry that replaces it: the same
    name, and the text of the file behind the path. *)
Definition inlined (old new : string * string) : Prop :=
  fst new = fst old /\ readFileSync (snd old) = inr (snd new).

(** Lines 251-256: the [reduce] over the job names.  Its callback reads
    the identifier [expression], which nothing declares: the first job
    throws a ReferenceError. *)
Definition inline_jobs (js : obj (obj string)) : result unit :=
  match obj_keys js with
  | [] => Ok tt
  | _ :: _ => Rejected "expression is not defined"
  end.

(** Lines 243-257: the monolith branch.  [credentials] is assigned as soon
    as its [reduce] returns, before the jobs are looked at. *)
Definition monolith (st : state) : state * result unit :=
  match inline_credentials (credentials st) (obj_keys (credentials st)) [] with
  | Ok creds =>
      let st' :=
        {| outputPath := outputPath st; type := type st; jobs := jobs st;
           triggers := triggers st; credentials := creds |} in
      (st', inline_jobs (jobs st'))
  | Rejected m => (st, Rejected m)
  | Crashed m => (st, Crashed m)
  | OutOfFuel => (st, OutOfFuel)
  end.

(** Lines 259-264: dump, show, write. *)
Definition write_document (st : state) : list event * result unit :=
  let data := dump (jobs st) (credentials st) (triggers st) in
  let logs :=
    [Log "Project yaml configuration complete:"; Log data;
     Log ("Writing to " ++ outputPath st)] in
  match writeFileSync (outputPath st) data with
  | None => ((logs ++ [WriteFile (outputPath st) data; Log "Done."])%list, Ok tt)
  | Some err => (logs, Rejected err)
  end.

(** Lines 242-265, the last [then]: the state it leaves, what it shows
    and writes, and how it ends. *)
Definition assemble (st : state) : state * list event * result unit :=
  let (st', r) :=
    if String.eqb (type st) "monolith" then monolith st else (st, Ok tt) in
  match r with
  | Ok _ => let (evs, r') := write_document st' in (st', evs, r')
  | other => (st', [], other)
  end.

Record outcome : Type := {
  final : state;
  trace : list event;
  exit_code : Z
}.

(** The [catch] that ends the chain: a rejection is logged and the chain
    is fulfilled. *)
Definition failure_log (m : string) : event :=
  Log (String (ascii_of_nat 10) " That didn't work. Error: " ++ m).

Definition catch_all (r : result unit) : list event * result unit :=
  match r with
  | Rejected m => ([failure_log m], Ok tt)
  | other => ([], other)
  end.

(** The exit code of the process: the script never sets one, so it is 0
    unless an exception escaped every handler. *)
Definition exit_code_of (r : result unit) : Z :=
  match r with
  | Ok _ => 0
  | _ => 1
  end.

Definition finish (st : state) (s : session) (r : result unit) : outcome :=
  let (evs, r') := catch_all r in
  {| final := st; trace := (shown s ++ evs)%list; exit_code := exit_code_of r' |}.

Definition welcome : string :=
  "Welcome to the project spec generator. This wizard will help you generate a project.yaml file for use with "
  ++ brightCyan "OpenFn/platform" ++ " and " ++ brightCyan "OpenFn/microservice"
  ++ ".".

Definition initial : state :=
  {| outputPath := EmptyString; type := EmptyString; jobs := [];
     triggers := []; credentials := [] |}.

Definition with_result {A} (r : result A) : result unit :=
  match r with
  | Ok _ => Ok tt
  | Rejected m => Rejected m
  | Crashed m => Crashed m
  | OutOfFuel => OutOfFuel
  end.

(** Lines 222-268: the whole run on the lines typed on standard input. *)
Definition main (lines : list string) : outcome :=
  let s0 := {| stdin := lines; hist := []; shown := [Log welcome] |} in
  match setDest s0 with
  | (s1, Ok dest) =>
      match setType s1 with
      | (s2, Ok yamlType) =>
          let s2 := show [Log "Let's add some triggers."] s2 in
          match addTrigger (enough s2) [] s2 with
          | (ts, s3, Ok _) =>
              let s3 := show [Log "Let's add some credentials."] s3 in
              match addCredential (enough s3) [] s3 with
              | (cs, s4, Ok _) =>
                  let s4 := show [Log "Let's add your first job."] s4 in
                  match addJob (enough s4) [] s4 with
                  | (js, s5, Ok _) =>
                      let st :=
                        {| outputPath := dest; type := yamlType; jobs := js;
                           triggers := ts; credentials := cs |} in
                      let '(st', evs, r) := assemble st in
                      finish st' (show evs s5) r
                  | (js, s5, r) =>
                      finish {| outputPath := dest; type := yamlType;
                                jobs := js; triggers := ts; credentials := cs |}
                        s5 r
                  end
              | (cs, s4, r) =>
                  finish {| outputPath := dest; type := yamlType; jobs := [];
                            triggers := ts; credentials := cs |} s4 r
              end
          | (ts, s3, r) =>
              finish {| outputPath := dest; type := yamlType; jobs := [];
                        triggers := ts; credentials := [] |} s3 r
          end
      | (s2, r) =>
          finish {| outputPath := dest; type := EmptyString; jobs := [];
                    triggers := []; credentials := [] |} s2 (with_result r)
      end
  | (s1, r) => finish initial s1 (with_result r)
  end.

End Wizard.

End Generator.

(* ===================================================================== *)
(** ** Concrete worlds and sessions *)
(* ===================================================================== *)

Module UploaderExamples.
Import Js Regex Uploader.

Definition args (file : string) (u : bool) : argv :=
  {| arg_i := ArgString file; arg_d := false; arg_u := u |}.

Definition unreachable : ext_error :=
  {| ext_message := "connect ECONNREFUSED";
     ext_code_404 := false; ext_status_enoent := false |}.

Definition build (size : Z) : asset :=
  {| asset_name := "build.tgz"; asset_size := size; asset_id := 31 |}.

(** A world whose release holds [assets], whose local artifact has 10
    bytes, and whose calls all succeed. *)
Definition healthy (assets : list asset) : world :=
  {| GH_TOKEN := Some "token";
     getReleaseByTag := fun _ _ _ =>
       inr {| release_id := 7; release_assets := assets |};
     deleteReleaseAsset := fun _ _ _ => inr tt;
     uploadReleaseAsset := fun _ _ _ _ _ => inr "https://example.org/build.tgz";
     statSync := fun _ => inr 10%Z;
     readFileSync := fun _ => inr "0123456789" |}.

(** The same world, with an upload that the API refuses. *)
Definition failing_upload (assets : list asset) : world :=
  {| GH_TOKEN := Some "token";
     getReleaseByTag := getReleaseByTag (healthy assets);
     deleteReleaseAsset := deleteReleaseAsset (healthy assets);
     uploadReleaseAsset := fun _ _ _ _ _ => inl unreachable;
     statSync := statSync (healthy assets);
     readFileSync := readFileSync (healthy assets) |}.

(** The same world, with a delete that the API refuses. *)
Definition failing_delete (assets : list asset) : world :=
  {| GH_TOKEN := Some "token";
     getReleaseByTag := getReleaseByTag (healthy assets);
     deleteReleaseAsset := fun _ _ _ => inl unreachable;
     uploadReleaseAsset := uploadReleaseAsset (healthy assets);
     statSync := statSync (healthy assets);
     readFileSync := readFileSync (healthy assets) |}.

End UploaderExamples.

Module GeneratorExamples.
Import Js Prompt Generator.

(** A session that starts with the given lines on standard input. *)
Definition typing (lines : list string) : session :=
  {| stdin := lines; hist := []; shown := [] |}.

Definition tab : string := String (ascii_of_nat 9) EmptyString.

(** A file system that holds [./cred.json] and nothing else. *)
Definition one_file (path : string) : string + string :=
  if String.eqb path "./cred.json" then inr "{secret}"
  else inl ("ENOENT: no such file or directory, open '" ++ path ++ "'").

Definition writable (path data : string) : option string := None.

Definition to_text (js : obj (obj string)) (cs : obj string)
  (ts : obj (obj string)) : string := "jobs: ...".

(** The answers of one form of the trigger loop, for a name typed as
    [n], the type message with the criteria typed as [x], and the type
    success with the job typed as [x]; [a] answers the last question. *)
Definition message_answers (n x a : string) : obj string :=
  [("name", snd (name_before n)); ("type", "message");
   ("cron", "* * * * *");
   ("criteria", if truthy x then x else criteria_default);
   ("success", EmptyString); ("failure", EmptyString); ("another", a)].

Definition success_answers (n x a : string) : obj string :=
  [("name", snd (name_before n)); ("type", "success");
   ("cron", "* * * * *"); ("criteria", criteria_default);
   ("success", x); ("failure", EmptyString); ("another", a)].

End GeneratorExamples.

(* ===================================================================== *)
(** ** More worlds, and what the properties below speak of *)
(* ===================================================================== *)

Module UploaderShapes.
Import Js Regex Uploader UploaderExamples.

(** The arguments [a] with [-d] set or cleared. *)
Definition with_debug (a : argv) (d : bool) : argv :=
  {| arg_i := arg_i a; arg_d := d; arg_u := arg_u a |}.

Definition is_console_log (e : event) : bool :=
  match e with
  | ConsoleLog _ | ConsoleLogObj _ => true
  | _ => false
  end.

Definition not_found : ext_error :=
  {| ext_message := "Not Found";
     ext_code_404 := true; ext_status_enoent := false |}.

Definition missing_file : ext_error :=
  {| ext_message := "ENOENT: no such file or directory";
     ext_code_404 := false; ext_status_enoent := false |}.

(** A world whose repository has no release for the tag. *)
Definition no_release (token : string) : world :=
  {| GH_TOKEN := Some token;
     getReleaseByTag := fun _ _ _ => inl not_found;
     deleteReleaseAsset := fun _ _ _ => inr tt;
     uploadReleaseAsset := fun _ _ _ _ _ => inr "https://example.org/build.tgz";
     statSync := fun _ => inr 10%Z;
     readFileSync := fun _ => inr "0123456789" |}.

(** The healthy world, where the artifact vanished after it was
    measured. *)
Definition lost_artifact (assets : list asset) : world :=
  {| GH_TOKEN := Some "token";
     getReleaseByTag := getReleaseByTag (healthy assets);
     deleteReleaseAsset := deleteReleaseAsset (healthy assets);
     uploadReleaseAsset := uploadReleaseAsset (healthy assets);
     statSync := statSync (healthy assets);
     readFileSync := fun _ => inl missing_file |}.

End UploaderShapes.

Module Text.

(** Whether every code unit of [s] satisfies [p]. *)
Fixpoint every (p : ascii -> bool) (s : string) : bool :=
  match s with
  | EmptyString => true
  | String c t => p c && every p t
  end.

(** A non-empty run of code units that satisfy [p]. *)
Definition run_of (p : ascii -> bool) (s : string) : Prop :=
  s <> EmptyString /\ every p s = true.

End Text.

Module GeneratorShapes.
Import Js Prompt Generator.

(** A name as the loops store it: not empty, and without a space. *)
Definition stored_name (k : string) : Prop :=
  truthy k = true /\ includes " " k = false.

(** A record as [addJob] stores it: the four properties in the order of
    the form, none of them empty. *)
Definition job_record (r : obj string) : Prop :=
  exists expression adaptor trigger credential,
    r = [("expression", expression); ("adaptor", adaptor);
         ("trigger", trigger); ("credential", credential)]
    /\ truthy expression = true /\ truthy adaptor = true
    /\ truthy trigger = true /\ truthy credential = true.

(** The record [addTrigger] stores for the type [t] when [x] was typed
    for the one property that is asked. *)
Definition trigger_record (t x : string) : obj string :=
  ([("type", t);
    ("cron", if String.eqb t "cron" then or_else x "* * * * *"
             else "* * * * *");
    ("criteria", if String.eqb t "message" then or_else x criteria_default
                 else criteria_default)]
   ++ (if String.eqb t "success" && truthy x then [("success", x)] else [])
   ++ (if String.eqb t "failure" && truthy x then [("failure", x)] else [])
  )%list.

Definition stored_trigger (r : obj string) : Prop :=
  exists t x, In t trigger_types /\ r = trigger_record t x.

Definition is_write (e : event) : bool :=
  match e with
  | WriteFile _ _ => true
  | _ => false
  end.

(** A property whose [before] hook writes no file. *)
Definition quiet (sch : schema) : Prop :=
  forall line, filter is_write (fst (apply_before sch line)) = [].

End GeneratorShapes.

Module RunShapes.
Import Js Prompt Generator GeneratorShapes.

(** A step that ended as a promise ends: fulfilled or rejected. *)
Definition settled {A : Type} (r : result A) : Prop :=
  match r with
  | Ok _ | Rejected _ => True
  | Crashed _ | OutOfFuel => False
  end.

(** The file writes of a trace. *)
Definition writes (t : list event) : list event := filter is_write t.

(** Lines 222-241: the five collecting steps of the chain, as [main] runs
    them, when each of them is fulfilled: the state handed to the last
    step, and the session at that point. *)
Definition collected (nonce_job nonce_trigger nonce_credential : string)
  (lines : list string) : option (state * session) :=
  let s0 := {| stdin := lines; hist := []; shown := [Log welcome] |} in
  match setDest s0 with
  | (s1, Ok dest) =>
      match setType s1 with
      | (s2, Ok yamlType) =>
          let s2 := show [Log "Let's add some triggers."] s2 in
          match addTrigger nonce_trigger (enough s2) [] s2 with
          | (ts, s3, Ok _) =>
              let s3 := show [Log "Let's add some credentials."] s3 in
              match addCredential nonce_credential (enough s3) [] s3 with
              | (cs, s4, Ok _) =>
                  let s4 := show [Log "Let's add your first job."] s4 in
                  match addJob nonce_job (enough s4) [] s4 with
                  | (js, s5, Ok _) =>
                      Some ({| outputPath := dest; type := yamlType;
                               jobs := js; triggers := ts;
                               credentials := cs |}, s5)
                  | _ => None
                  end
              | _ => None
              end
          | _ => None
          end
      | _ => None
      end
  | _ => None
  end.

End RunShapes.

(* ===================================================================== *)
(** ** Properties of the release uploader *)
(* ===================================================================== *)

Section UploaderFacts.
Import Js Regex Uploader UploaderExamples.

Lemma derive_target_inv (file tag repo : string) :
  derive_target file = Some (tag, repo) ->
  exists v, match1 re_tag file = Some v /\ tag = "v" ++ v
            /\ match1 re_repo file = Some repo.
Proof.
  unfold derive_target.
  destruct (match1 re_tag file) as [v|]; [|discriminate].
  destruct (match1 re_repo file) as [r|]; [|discriminate].
  intros H; inversion H; subst. now exists v.
Qed.

Lemma derive_target_none (file : string) :
  derive_target file = None ->
  match1 re_tag file = None \/ match1 re_repo file = None.
Proof.
  unfold derive_target.
  destruct (match1 re_tag file); [|now left].
  destruct (match1 re_repo file); [discriminate|now right].
Qed.

(** With a token and a file name that yields a target, [main] is the
    settled promise chain. *)
Lemma main_chain (a : argv) (w : world) (tok file tag repo : string) :
  GH_TOKEN w = Some tok -> truthy tok = true ->
  arg_i a = ArgString file ->
  derive_target file = Some (tag, repo) ->
  main a w =
  settle a (bind (findBuildFor w repo tag) (uploadUnlessExists a w repo file)).
Proof.
  intros Htok Ht Hi Hd.
  destruct (derive_target_inv _ _ _ Hd) as (v & Hv & -> & Hr).
  unfold main. rewrite Htok, Hi.
  destruct tok; [discriminate|].
  assert (Hf : truthy file = true).
  { destruct file; [|reflexivity]. vm_compute in Hv. discriminate. }
  cbn [arg_truthy]. rewrite Hf. cbn [negb].
  now rewrite Hv, Hr.
Qed.

(** C1, as stated, fails twice: the bare file name [myrepo-v1.2.3.tgz]
    has the shape the specification names, yet the repository pattern
    finds no slash in it and the run ends with code 1; and
    [./builds/myrepo-v1.2.3.4.tgz] has not that shape, yet a target is
    derived and the release is looked up. *)
Lemma C1_counterexample :
  spec_shape "myrepo-v1.2.3.tgz" = true
  /\ derive_target "myrepo-v1.2.3.tgz" = None
  /\ main (args "myrepo-v1.2.3.tgz" false) (healthy [])
     = die msg_null_index
  /\ spec_shape "./builds/myrepo-v1.2.3.4.tgz" = false
  /\ requests (trace (main (args "./builds/myrepo-v1.2.3.4.tgz" false)
                        (healthy [])))
     = [ReqGetReleaseByTag "OpenFn" "myrepo" "v2.3.4";
        ReqUploadReleaseAsset "OpenFn" "myrepo" "build.tgz" 7 "0123456789"].
Proof. repeat split; vm_compute; reflexivity. Qed.

(** C1 (amended): the path [./builds/myrepo-v1.2.3.tgz] yields the tag
    [v1.2.3] and the repository [myrepo]; and whenever one of the two
    patterns of the script finds no match in the value of [-i], the run
    ends with exit code 1 and no request was sent. *)
Theorem C1_target_derivation :
  derive_target "./builds/myrepo-v1.2.3.tgz" = Some ("v1.2.3", "myrepo")
  /\ forall (a : argv) (w : world) (file : string),
       arg_i a = ArgString file ->
       derive_target file = None ->
       exit_code (main a w) = 1%Z /\ requests (trace (main a w)) = [].
Proof.
  split; [vm_compute; reflexivity|].
  intros a w file Hi Hd. unfold main. rewrite Hi.
  destruct (GH_TOKEN w) as [[|c tok]|]; try (split; reflexivity).
  destruct (negb (arg_truthy (ArgString file))); [split; reflexivity|].
  destruct (derive_target_none _ Hd) as [H | H].
  - rewrite H. split; reflexivity.
  - rewrite H. destruct (match1 re_tag file); split; reflexivity.
Qed.

Lemma C1_target_derivation_witness :
  exit_code (main (args "builds-myrepo-1.2.3.tgz" true) (healthy [])) = 1%Z
  /\ requests (trace (main (args "builds-myrepo-1.2.3.tgz" true) (healthy [])))
     = [].
Proof.
  apply (proj2 C1_target_derivation _ _ "builds-myrepo-1.2.3.tgz");
    vm_compute; reflexivity.
Defined.

Ltac run_chain :=
  unfold findBuildFor, uploadUnlessExists, settle, bind, emit, lift, ret,
    throw, logError;
  cbn [fst snd app].

(** C2: when the release holds an asset named build.tgz and the local
    artifact has the same size, or another size while [-u] is not set, the
    run exits with code 2 and sends neither a delete nor an upload. *)
Theorem C2_existing_asset_exits_2
  (a : argv) (w : world) (tok file tag repo : string)
  (rel : release) (ex : asset) (localSize : Z) :
  GH_TOKEN w = Some tok -> truthy tok = true ->
  arg_i a = ArgString file ->
  derive_target file = Some (tag, repo) ->
  getReleaseByTag w owner repo tag = inr rel ->
  existing_asset rel = Some ex ->
  statSync w file = inr localSize ->
  localSize = asset_size ex \/ arg_u a = false ->
  exit_code (main a w) = 2%Z
  /\ uploads (trace (main a w)) = []
  /\ deletes (trace (main a w)) = [].
Proof.
  intros Htok Ht Hi Hd Hrel Hex Hstat Hcase.
  rewrite (main_chain a w tok file tag repo Htok Ht Hi Hd).
  run_chain. rewrite Hrel, Hex, Hstat. cbn.
  destruct (Z.eqb_spec localSize (asset_size ex)) as [Heq | Hne].
  - destruct (arg_d a); repeat split; reflexivity.
  - destruct Hcase as [? | Hu]; [contradiction|]. rewrite Hu. cbn.
    destruct (arg_d a); repeat split; reflexivity.
Qed.

Lemma C2_existing_asset_exits_2_witness :
  exit_code (main (args "./builds/myrepo-v1.2.3.tgz" false)
               (healthy [build 12])) = 2%Z
  /\ uploads (trace (main (args "./builds/myrepo-v1.2.3.tgz" false)
                       (healthy [build 12]))) = []
  /\ deletes (trace (main (args "./builds/myrepo-v1.2.3.tgz" false)
                       (healthy [build 12]))) = [].
Proof.
  apply (C2_existing_asset_exits_2
           (args "./builds/myrepo-v1.2.3.tgz" false) (healthy [build 12])
           "token" "./builds/myrepo-v1.2.3.tgz" "v1.2.3" "myrepo"
           {| release_id := 7; release_assets := [build 12] |}
           (build 12) 10%Z);
    try reflexivity.
  right; reflexivity.
Defined.

(** C3, as stated, fails where a call fails: with no asset on the release
    and an upload that the API refuses, one upload is sent, but the run
    exits with code 1 and prints no download URL; with an asset of another
    size and [-u], a refused delete is followed by no upload at all. *)
Lemma C3_counterexample :
  existing_asset {| release_id := 7; release_assets := [] |} = None
  /\ main (args "./builds/myrepo-v1.2.3.tgz" false) (failing_upload [])
     = {| trace :=
            [ReqGetReleaseByTag "OpenFn" "myrepo" "v1.2.3";
             ConsoleLog "Uploading release asset.";
             ReqUploadReleaseAsset "OpenFn" "myrepo" "build.tgz" 7
               "0123456789";
             ConsoleLogObj unreachable;
             ConsoleError "Upload Failed."];
          exit_code := 1 |}
  /\ existing_asset {| release_id := 7; release_assets := [build 12] |}
     = Some (build 12)
  /\ main (args "./builds/myrepo-v1.2.3.tgz" true) (failing_delete [build 12])
     = {| trace :=
            [ReqGetReleaseByTag "OpenFn" "myrepo" "v1.2.3";
             ReqDeleteReleaseAsset "OpenFn" "myrepo" 31;
             ConsoleError "connect ECONNREFUSED"];
          exit_code := 1 |}.
Proof. repeat split; vm_compute; reflexivity. Qed.

(** C3 (amended): when an asset named build.tgz exists with a size other
    than the local artifact's and [-u] is set, a delete of that asset is
    requested right after the lookup, and when it succeeds and the
    artifact can be read, exactly one upload follows it.  When no asset
    named build.tgz exists and the artifact can be read, the requests
    after the lookup are exactly one upload, under the name build.tgz;
    when that upload succeeds the run exits with code 0 and the returned
    download URL is printed. *)
Theorem C3_replace_or_upload
  (a : argv) (w : world) (tok file tag repo : string) (rel : release) :
  GH_TOKEN w = Some tok -> truthy tok = true ->
  arg_i a = ArgString file ->
  derive_target file = Some (tag, repo) ->
  getReleaseByTag w owner repo tag = inr rel ->
  (forall (ex : asset) (localSize : Z),
      existing_asset rel = Some ex ->
      statSync w file = inr localSize ->
      localSize <> asset_size ex ->
      arg_u a = true ->
      (exists more,
          requests (trace (main a w))
          = ReqGetReleaseByTag owner repo tag
              :: ReqDeleteReleaseAsset owner repo (asset_id ex) :: more)
      /\ forall data,
          deleteReleaseAsset w owner repo (asset_id ex) = inr tt ->
          readFileSync w file = inr data ->
          requests (trace (main a w))
          = [ReqGetReleaseByTag owner repo tag;
             ReqDeleteReleaseAsset owner repo (asset_id ex);
             ReqUploadReleaseAsset owner repo "build.tgz" (release_id rel)
               data])
  /\ (existing_asset rel = None ->
      forall data,
        readFileSync w file = inr data ->
        requests (trace (main a w))
        = [ReqGetReleaseByTag owner repo tag;
           ReqUploadReleaseAsset owner repo "build.tgz" (release_id rel) data]
        /\ forall url,
            uploadReleaseAsset w owner repo "build.tgz" (release_id rel) data
            = inr url ->
            exit_code (main a w) = 0%Z
            /\ In (ConsoleLog ("✓ Build uploaded as release asset: " ++ url))
                 (trace (main a w))).
Proof.
  intros Htok Ht Hi Hd Hrel.
  rewrite (main_chain a w tok file tag repo Htok Ht Hi Hd).
  split.
  - intros ex localSize Hex Hstat Hne Hu. split.
    + run_chain. rewrite Hrel, Hex, Hstat, Hu. cbn.
      destruct (Z.eqb_spec localSize (asset_size ex)); [contradiction|].
      cbn.
      destruct (deleteReleaseAsset w owner repo (asset_id ex)) as [e | []];
        cbn; [destruct (arg_d a); eexists; reflexivity|].
      destruct (readFileSync w file) as [e | data];
        cbn; [destruct (arg_d a); eexists; reflexivity|].
      destruct (uploadReleaseAsset w owner repo "build.tgz" (release_id rel)
                  data) as [e | url]; cbn; [|eexists; reflexivity].
      destruct (ext_status_enoent e); cbn;
        destruct (arg_d a); eexists; reflexivity.
    + intros data Hdel Hread.
      run_chain. rewrite Hrel, Hex, Hstat, Hu. cbn.
      destruct (Z.eqb_spec localSize (asset_size ex)); [contradiction|].
      cbn. rewrite Hdel. cbn. rewrite Hread. cbn.
      destruct (uploadReleaseAsset w owner repo "build.tgz" (release_id rel)
                  data) as [e | url]; cbn; [|reflexivity].
      destruct (ext_status_enoent e); cbn; destruct (arg_d a); reflexivity.
  - intros Hex data Hread. split.
    + run_chain. rewrite Hrel, Hex. cbn. rewrite Hread. cbn.
      destruct (uploadReleaseAsset w owner repo "build.tgz" (release_id rel)
                  data) as [e | url]; cbn; [|reflexivity].
      destruct (ext_status_enoent e); cbn; destruct (arg_d a); reflexivity.
    + intros url Hup.
      run_chain. rewrite Hrel, Hex. cbn. rewrite Hread. cbn. rewrite Hup.
      cbn. split; [reflexivity|]. right; right; right; left; reflexivity.
Qed.

Lemma C3_replace_or_upload_witness :
  requests (trace (main (args "./builds/myrepo-v1.2.3.tgz" true)
                        (healthy [build 12])))
  = [ReqGetReleaseByTag owner "myrepo" "v1.2.3";
     ReqDeleteReleaseAsset owner "myrepo" 31;
     ReqUploadReleaseAsset owner "myrepo" "build.tgz" 7 "0123456789"]
  /\ exit_code (main (args "./builds/myrepo-v1.2.3.tgz" false) (healthy []))
     = 0%Z
  /\ In (ConsoleLog ("✓ Build uploaded as release asset: "
                     ++ "https://example.org/build.tgz"))
       (trace (main (args "./builds/myrepo-v1.2.3.tgz" false) (healthy []))).
Proof.
  split.
  - apply (proj2 (proj1 (C3_replace_or_upload
             (args "./builds/myrepo-v1.2.3.tgz" true) (healthy [build 12])
             "token" "./builds/myrepo-v1.2.3.tgz" "v1.2.3" "myrepo"
             {| release_id := 7; release_assets := [build 12] |}
             eq_refl eq_refl eq_refl eq_refl eq_refl)
           (build 12) 10%Z eq_refl eq_refl ltac:(discriminate) eq_refl));
      reflexivity.
  - apply (proj2 (proj2 (C3_replace_or_upload
             (args "./builds/myrepo-v1.2.3.tgz" false) (healthy [])
             "token" "./builds/myrepo-v1.2.3.tgz" "v1.2.3" "myrepo"
             {| release_id := 7; release_assets := [] |}
             eq_refl eq_refl eq_refl eq_refl eq_refl)
           eq_refl "0123456789" eq_refl)
           "https://example.org/build.tgz" eq_refl).
Defined.

End UploaderFacts.

(* ===================================================================== *)
(** ** Properties of the objects and of the prompt session *)
(* ===================================================================== *)

Section ObjectFacts.
Import Js.
Context {V : Type}.

Lemma has_key_In (k : string) (o : obj V) :
  has_key k o = true <-> In k (obj_keys o).
Proof.
  unfold has_key. rewrite existsb_exists. split.
  - intros (x & Hin & Heq). apply String.eqb_eq in Heq. now subst.
  - intros Hin. exists k. split; [assumption | apply String.eqb_refl].
Qed.

Lemma obj_keys_put (k : string) (v : V) (o : obj V) :
  obj_keys (obj_put k v o)
  = if has_key k o then obj_keys o else (obj_keys o ++ [k])%list.
Proof.
  induction o as [|[k' v'] t IH]; [reflexivity|].
  unfold has_key, obj_keys in *. cbn.
  destruct (String.eqb k k'); cbn; [reflexivity|].
  rewrite IH. now destruct (existsb (String.eqb k) (map fst t)).
Qed.

Lemma obj_set_NoDup (k : string) (v : V) (o : obj V) :
  NoDup (obj_keys o) -> NoDup (obj_keys (obj_set k v o)).
Proof.
  intros Hnd. unfold obj_set.
  destruct (String.eqb k "__proto__"); [assumption|].
  rewrite obj_keys_put.
  destruct (has_key k o) eqn:Hk; [assumption|].
  apply NoDup_app; [assumption | repeat constructor; intros [] |].
  intros x Hin [<- | []].
  apply has_key_In in Hin. congruence.
Qed.

Lemma obj_get_put_same (k : string) (v : V) (o : obj V) :
  obj_get k (obj_put k v o) = Some v.
Proof.
  induction o as [|[k' v'] t IH]; cbn.
  - now rewrite String.eqb_refl.
  - destruct (String.eqb k k') eqn:E; cbn; now rewrite E.
Qed.

Lemma obj_get_put_other (k k' : string) (v : V) (o : obj V) :
  k' <> k -> obj_get k' (obj_put k v o) = obj_get k' o.
Proof.
  intros Hne. induction o as [|[k0 v0] t IH]; cbn.
  - apply String.eqb_neq in Hne. now rewrite Hne.
  - destruct (String.eqb k k0) eqn:E; cbn.
    + apply String.eqb_eq in E; subst k0.
      apply String.eqb_neq in Hne. now rewrite Hne.
    + now rewrite IH.
Qed.

(** [o[k] = v] leaves every other property as it was. *)
Lemma obj_get_set_other (k k' : string) (v : V) (o : obj V) :
  k' <> k -> obj_get k' (obj_set k v o) = obj_get k' o.
Proof.
  intros Hne. unfold obj_set.
  destruct (String.eqb k "__proto__"); [reflexivity|].
  now apply obj_get_put_other.
Qed.

End ObjectFacts.

Section SessionFacts.
Import Js Prompt.

Lemma read_loop_shorter (name : string) (sch : schema) (h : history)
  (lines : list string) :
  forall acc s v,
    read_loop name sch h lines acc = (s, Ok v) ->
    List.length (stdin s) < List.length lines.
Proof.
  induction lines as [|l rest IH]; intros acc s v; cbn.
  - discriminate.
  - destruct (apply_before sch (effective sch l)) as [notes line'].
    destruct (validate sch _).
    + intros H; inversion H; subst; cbn. lia.
    + intros H. apply IH in H. lia.
Qed.

Lemma read_loop_no_longer (name : string) (sch : schema) (h : history)
  (lines : list string) :
  forall acc,
    List.length (stdin (fst (read_loop name sch h lines acc)))
    <= List.length lines.
Proof.
  induction lines as [|l rest IH]; intros acc; cbn; [lia|].
  destruct (apply_before sch (effective sch l)) as [notes line'].
  destruct (validate sch _); cbn; [lia|].
  etransitivity; [apply IH | lia].
Qed.

Lemma read_loop_ends (name : string) (sch : schema) (h : history)
  (lines : list string) :
  forall acc,
    match snd (read_loop name sch h lines acc) with
    | Ok _ | Rejected _ => True
    | _ => False
    end.
Proof.
  induction lines as [|l rest IH]; intros acc; cbn; [exact I|].
  destruct (apply_before sch (effective sch l)) as [notes line'].
  destruct (validate sch _); cbn; [exact I | apply IH].
Qed.

Lemma getInput_no_longer (name : string) (sch : schema) (s : session) :
  List.length (stdin (fst (getInput name sch s))) <= List.length (stdin s).
Proof.
  unfold getInput.
  destruct (ask sch) as [f|]; [destruct (f (hist s)) as [[|]|]|];
    cbn; try lia; apply read_loop_no_longer.
Qed.

Lemma getInput_not_cut (name : string) (sch : schema) (s : session) :
  snd (getInput name sch s) <> OutOfFuel.
Proof.
  unfold getInput.
  pose proof (read_loop_ends name sch (hist s) (stdin s) (shown s)) as H.
  destruct (ask sch) as [f|]; [destruct (f (hist s)) as [[|]|]|];
    cbn; try discriminate;
    destruct (snd (read_loop name sch (hist s) (stdin s) (shown s)));
    try discriminate; contradiction.
Qed.

Lemma get_from_no_longer (props : list (string * schema)) :
  forall acc s,
    List.length (stdin (fst (get_from props acc s)))
    <= List.length (stdin s).
Proof.
  induction props as [|[name sch] more IH]; intros acc s; cbn; [lia|].
  pose proof (getInput_no_longer name sch s) as Hle.
  destruct (getInput name sch s) as [s' [line| | |]]; cbn in *; try lia.
  specialize (IH (obj_set name line acc) s'). lia.
Qed.

Lemma get_from_not_cut (props : list (string * schema)) :
  forall acc s, snd (get_from props acc s) <> OutOfFuel.
Proof.
  induction props as [|[name sch] more IH]; intros acc s; cbn;
    [discriminate|].
  pose proof (getInput_not_cut name sch s) as Hn.
  destruct (getInput name sch s) as [s' [line| | |]]; cbn in *;
    try discriminate; [apply IH | congruence].
Qed.

(** A form whose first property is always asked takes at least one
    line. *)
Lemma get_shorter (name : string) (sch : schema)
  (more : list (string * schema)) (s s' : session) (answers : obj string) :
  ask sch = None ->
  get ((name, sch) :: more) s = (s', Ok answers) ->
  List.length (stdin s') < List.length (stdin s).
Proof.
  unfold get. cbn. unfold getInput. intros ->.
  destruct (read_loop name sch (hist s) (stdin s) (shown s))
    as [s1 [line| | |]] eqn:E; try discriminate.
  apply read_loop_shorter in E. intros H.
  pose proof (get_from_no_longer more (obj_set name line []) s1) as Hle.
  rewrite H in Hle. cbn in Hle. lia.
Qed.

End SessionFacts.

(* ===================================================================== *)
(** ** Properties of the project spec generator *)
(* ===================================================================== *)

Section LoopFacts.
Import Js Prompt Generator.

Lemma addJob_step (nonce : string) (n : nat) (o : obj (obj string))
  (s : session) :
  addJob nonce (S n) o s =
  match get (jobForm nonce o) s with
  | (s', Ok answers) =>
      let o' := obj_set (field "name" answers) (rest_of answers) o in
      if String.eqb (field "another" answers) "y"
      then addJob nonce n o' s'
      else (o', show [Log "OK. Jobs written."] s', Ok tt)
  | (s', Rejected m) => (o, s', Rejected m)
  | (s', Crashed m) => (o, s', Crashed m)
  | (s', OutOfFuel) => (o, s', OutOfFuel)
  end.
Proof. reflexivity. Qed.

Lemma addTrigger_step (nonce : string) (n : nat) (o : obj (obj string))
  (s : session) :
  addTrigger nonce (S n) o s =
  match get (triggerForm nonce o) s with
  | (s', Ok answers) =>
      let o' :=
        obj_set (field "name" answers) (removeFalsy (rest_of answers)) o in
      if String.eqb (field "another" answers) "y"
      then addTrigger nonce n o' s'
      else (o', show [Log "OK. Triggers written."] s', Ok tt)
  | (s', Rejected m) => (o, s', Rejected m)
  | (s', Crashed m) => (o, s', Crashed m)
  | (s', OutOfFuel) => (o, s', OutOfFuel)
  end.
Proof. reflexivity. Qed.

Lemma addCredential_step (nonce : string) (n : nat) (o : obj string)
  (s : session) :
  addCredential nonce (S n) o s =
  match get (credentialForm nonce o) s with
  | (s', Ok answers) =>
      let o' := obj_set (field "name" answers) (field "body" answers) o in
      if String.eqb (field "another" answers) "y"
      then addCredential nonce n o' s'
      else (o', show [Log "OK. Credentials written."] s', Ok tt)
  | (s', Rejected m) => (o, s', Rejected m)
  | (s', Crashed m) => (o, s', Crashed m)
  | (s', OutOfFuel) => (o, s', OutOfFuel)
  end.
Proof. reflexivity. Qed.

(** The three loops keep the names of their accumulator distinct. *)
Ltac loop_keeps_NoDup step :=
  let fuel := fresh "fuel" in
  let IH := fresh "IH" in
  intros fuel; induction fuel as [|fuel IH]; intros o s Hnd;
  [ exact Hnd
  | rewrite step;
    destruct (get _ s) as [s' [answers| | |]]; cbn zeta; try exact Hnd;
    destruct (String.eqb _ "y");
    [ apply IH | cbn [fst] ]; apply obj_set_NoDup; exact Hnd ].



Lemma addCredential_NoDup (nonce : string) :
  forall fuel o s,
    NoDup (obj_keys o) ->
    NoDup (obj_keys (fst (fst (addCredential nonce fuel o s)))).
Proof. loop_keeps_NoDup addCredential_step. Qed.

(** With the fuel of [enough], no loop is cut short: each form takes at
    least the line of its name. *)
Ltac loop_is_total step first_field :=
  let fuel := fresh "fuel" in
  let IH := fresh "IH" in
  intros fuel; induction fuel as [|fuel IH]; intros o s Hlt;
  [ lia
  | rewrite step;
    destruct (get _ s) as [s' [answers| | |]] eqn:E; cbn zeta;
    try discriminate;
    [ assert (List.length (stdin s') < List.length (stdin s))
        by (eapply get_shorter with (sch := first_field o);
            [reflexivity | exact E]);
      destruct (String.eqb _ "y"); [apply IH; lia | discriminate]
    | exfalso; eapply get_from_not_cut; unfold get in E; rewrite E;
      reflexivity ] ].

Lemma addJob_total (nonce : string) :
  forall fuel o s,
    List.length (stdin s) < fuel ->
    snd (addJob nonce fuel o s) <> OutOfFuel.
Proof.
  loop_is_total addJob_step (fun o : obj (obj string) => snd (name nonce o "Job")).
Qed.

Lemma addTrigger_total (nonce : string) :
  forall fuel o s,
    List.length (stdin s) < fuel ->
    snd (addTrigger nonce fuel o s) <> OutOfFuel.
Proof.
  loop_is_total addTrigger_step
    (fun o : obj (obj string) => snd (name nonce o "Trigger")).
Qed.

Lemma addCredential_total (nonce : string) :
  forall fuel o s,
    List.length (stdin s) < fuel ->
    snd (addCredential nonce fuel o s) <> OutOfFuel.
Proof.
  loop_is_total addCredential_step
    (fun o : obj string => snd (name nonce o "Credential")).
Qed.

(** The fuel [main] gives the loops suffices. *)
Lemma loops_never_cut (nonce : string) (s : session) :
  snd (addTrigger nonce (enough s) [] s) <> OutOfFuel
  /\ snd (addCredential nonce (enough s) [] s) <> OutOfFuel
  /\ snd (addJob nonce (enough s) [] s) <> OutOfFuel.
Proof.
  unfold enough. repeat split;
    [apply addTrigger_total | apply addCredential_total | apply addJob_total];
    lia.
Qed.

End LoopFacts.

Section NameFacts.
Import Js Prompt Generator GeneratorExamples.

Lemma read_loop_cons (name : string) (sch : schema) (h : history)
  (l : string) (rest : list string) (acc : list event) :
  read_loop name sch h (l :: rest) acc =
  let line := effective sch l in
  let acc' :=
    (acc ++ Asked (description sch) :: fst (apply_before sch line))%list in
  if validate sch (if truthy line then Some line else None)
  then ({| stdin := rest;
           hist := remember name (snd (apply_before sch line)) h;
           shown := acc' |},
        Ok (snd (apply_before sch line)))
  else read_loop name sch h rest (acc' ++ [LogError (invalid_message sch)])%list.
Proof.
  cbn [read_loop]. destruct (apply_before sch (effective sch l)). reflexivity.
Qed.

Lemma replace_runs_no_space (s : string) :
  forall in_run, any_char is_space (replace_runs in_run s) = false.
Proof.
  induction s as [|c t IH]; intros in_run; [reflexivity|].
  cbn [replace_runs]. destruct (is_space c) eqn:Hc.
  - destruct in_run; [apply IH|].
    cbn [any_char]. rewrite IH. reflexivity.
  - cbn [any_char]. now rewrite Hc, IH.
Qed.

Lemma includes_truthy (sub s : string) :
  truthy sub = true -> includes sub s = true -> truthy s = true.
Proof.
  destruct s; [|reflexivity]. destruct sub; [discriminate|].
  cbn. discriminate.
Qed.

Lemma invalid_message_name (V : Type) (nonce : string) (arr : obj V)
  (thing : string) :
  invalid_message (snd (name nonce arr thing)) = unique_message thing.
Proof.
  unfold invalid_message, unique_message. cbn [name snd message].
  now destruct thing.
Qed.



(** C8, as stated, fails for white space other than the space: a name
    with a tab in it is stored as typed, and no notice is shown. *)
Lemma C8_counterexample :
  any_char is_space ("a" ++ tab ++ "b") = true
  /\ addCredential "shy" 3 []
       (typing ["a" ++ tab ++ "b"; "./cred.json"; "n"])
     = ([("a" ++ tab ++ "b", "./cred.json")],
        {| stdin := [];
           hist := [("another", "n"); ("body", "./cred.json");
                    ("name", "a" ++ tab ++ "b")];
           shown :=
             [Asked (brightCyan "Credential name");
              Asked (brightCyan "Path to credential.json");
              Asked (brightCyan
                       "Would you like to add another credential? (y/n)");
              Log "OK. Credentials written."] |},
        Ok tt).
Proof. split; vm_compute; reflexivity. Qed.

(** C8 (amended): for every proposed name that contains a space
    character, the name that is accepted is the proposal with each run of
    white space replaced by one hyphen, it has no white space in it, and
    the notice of the replacement is shown before the name is accepted or
    rejected. *)
Theorem C8_spaces_become_hyphens
  (V : Type) (nonce : string) (arr : obj V) (thing l : string)
  (rest : list string) (h : history) (acc : list event) :
  let sch := snd (name nonce arr thing) in
  let line := effective sch l in
  includes " " line = true ->
  any_char is_space (replace_spaces line) = false
  /\ (has_key line arr = false ->
      getInput "name" sch {| stdin := l :: rest; hist := h; shown := acc |}
      = ({| stdin := rest;
            hist := remember "name" (replace_spaces line) h;
            shown := (acc ++ [Asked (description sch); notice line])%list |},
         Ok (replace_spaces line)))
  /\ (has_key line arr = true ->
      getInput "name" sch {| stdin := l :: rest; hist := h; shown := acc |}
      = getInput "name" sch
          {| stdin := rest; hist := h;
             shown :=
               ((acc ++ [Asked (description sch); notice line])
                ++ [LogError (unique_message thing)])%list |}).
Proof.
  intros sch line Hsp.
  split; [apply replace_runs_no_space|].
  assert (Ht : truthy line = true)
    by (apply (includes_truthy " " line); [reflexivity | exact Hsp]).
  assert (Hb : apply_before sch line = ([notice line], replace_spaces line)).
  { change (name_before line = ([notice line], replace_spaces line)).
    unfold name_before. now rewrite Hsp. }
  assert (Hv : validate sch (Some line) = negb (has_key line arr))
    by reflexivity.
  pose proof (invalid_message_name V nonce arr thing) as Hm. fold sch in Hm.
  split; intros Hk;
    unfold getInput; change (ask sch) with (@None (history -> option bool));
    cbn [stdin hist shown]; rewrite read_loop_cons; cbn zeta;
    fold line; rewrite Ht, Hv, Hk, Hb, ?Hm; reflexivity.
Qed.

Lemma C8_spaces_become_hyphens_witness :
  any_char is_space (replace_spaces "my first job") = false
  /\ getInput "name" (snd (name "shy" (@nil (string * string)) "Job"))
       (typing ["my first job"; "./job.js"])
     = ({| stdin := ["./job.js"];
           hist := [("name", "my-first-job")];
           shown := [Asked (brightCyan "Job name"); notice "my first job"] |},
        Ok "my-first-job").
Proof.
  split.
  - apply (proj1 (C8_spaces_become_hyphens (string) "shy" [] "Job"
                    "my first job" ["./job.js"] [] [] eq_refl)).
  - apply (proj1 (proj2 (C8_spaces_become_hyphens (string) "shy" [] "Job"
                    "my first job" ["./job.js"] [] [] eq_refl)) eq_refl).
Defined.

End NameFacts.

Section FormFacts.
Import Js Prompt Generator GeneratorExamples.

Lemma get_from_cons (p : string * schema)
  (more : list (string * schema)) (acc : obj string) (s : session) :
  get_from (p :: more) acc s =
  match getInput (fst p) (snd p) s with
  | (s', Ok line) => get_from more (obj_set (fst p) line acc) s'
  | (s', Rejected m) => (s', Rejected m)
  | (s', Crashed m) => (s', Crashed m)
  | (s', OutOfFuel) => (s', OutOfFuel)
  end.
Proof. now destruct p. Qed.

(** A line that passes validation is accepted at once. *)
Lemma getInput_accept (name : string) (sch : schema) (h : history)
  (l : string) (rest : list string) (acc : list event) :
  match ask sch with Some f => f h = Some true | None => True end ->
  validate sch (if truthy (effective sch l)
                then Some (effective sch l) else None) = true ->
  getInput name sch {| stdin := l :: rest; hist := h; shown := acc |}
  = ({| stdin := rest;
        hist := remember name (snd (apply_before sch (effective sch l))) h;
        shown := (acc ++ Asked (description sch)
                      :: fst (apply_before sch (effective sch l)))%list |},
     Ok (snd (apply_before sch (effective sch l)))).
Proof.
  intros Ha Hv. unfold getInput. cbn [stdin hist shown].
  rewrite read_loop_cons. cbn zeta. rewrite Hv.
  destruct (ask sch) as [f|]; [now rewrite Ha | reflexivity].
Qed.

(** A line that fails validation is answered with the message, and the
    next line is read. *)
Lemma getInput_reject (name : string) (sch : schema) (h : history)
  (l : string) (rest : list string) (acc : list event) :
  ask sch = None ->
  validate sch (if truthy (effective sch l)
                then Some (effective sch l) else None) = false ->
  getInput name sch {| stdin := l :: rest; hist := h; shown := acc |}
  = getInput name sch
      {| stdin := rest; hist := h;
         shown := ((acc ++ Asked (description sch)
                        :: fst (apply_before sch (effective sch l)))
                   ++ [LogError (invalid_message sch)])%list |}.
Proof.
  intros Ha Hv. unfold getInput. rewrite Ha. cbn [stdin hist shown].
  rewrite read_loop_cons. cbn zeta. now rewrite Hv.
Qed.

(** A property that is not asked answers its default, or the empty
    string. *)
Lemma getInput_skip (name : string) (sch : schema) (s : session)
  (f : history -> option bool) :
  ask sch = Some f -> f (hist s) = Some false ->
  getInput name sch s = (s, Ok (or_else (default_or_empty sch) EmptyString)).
Proof. intros Ha Hf. unfold getInput. now rewrite Ha, Hf. Qed.

(** A property without [required] and [conform] accepts every line. *)
Lemma validate_lenient (sch : schema) (against : option string) :
  required sch = false -> conform sch = None -> validate sch against = true.
Proof.
  intros Hr Hc. unfold validate. rewrite Hr, Hc. now destruct against.
Qed.

Lemma name_accept (V : Type) (nonce : string) (arr : obj V)
  (thing n : string) (rest : list string) (h : history) (acc : list event) :
  truthy n = true -> has_key n arr = false ->
  getInput "name" (snd (name nonce arr thing))
    {| stdin := n :: rest; hist := h; shown := acc |}
  = ({| stdin := rest;
        hist := remember "name" (snd (name_before n)) h;
        shown := (acc ++ Asked (brightCyan (thing ++ " name"))
                      :: fst (name_before n))%list |},
     Ok (snd (name_before n))).
Proof.
  intros Hn Hk.
  assert (He : effective (snd (name nonce arr thing)) n = n)
    by (unfold effective; now rewrite Hn).
  rewrite getInput_accept; rewrite ?He; [reflexivity | exact I |].
  rewrite Hn. cbn. unfold duplicateCheck. now rewrite Hk.
Qed.

Lemma existsb_eqb_In (x : string) (l : list string) :
  existsb (String.eqb x) l = true <-> In x l.
Proof.
  rewrite existsb_exists. split.
  - intros (y & Hin & Heq). apply String.eqb_eq in Heq. now subst.
  - intros Hin. exists x. split; [assumption | apply String.eqb_refl].
Qed.

(** C5, as stated, fails on the values it lists: [scheduled],
    [on-success] and [on-failure] are each rejected with the message of
    the type property, while [cron], [success] and [failure] are
    accepted. *)
Lemma C5_counterexample :
  getInput "type" type_field
    (typing ["scheduled"; "on-success"; "on-failure"; "success"])
  = ({| stdin := [];
        hist := [("type", "success")];
        shown :=
          [Asked (description type_field); LogError type_message;
           Asked (description type_field); LogError type_message;
           Asked (description type_field); LogError type_message;
           Asked (description type_field)] |},
     Ok "success")
  /\ snd (getInput "type" type_field (typing ["cron"])) = Ok "cron"
  /\ snd (getInput "type" type_field (typing ["failure"])) = Ok "failure".
Proof. repeat split; vm_compute; reflexivity. Qed.

(** C5 (amended): the type of a trigger accepts exactly the four values
    cron, message, success and failure (an empty line stands for the
    default, cron); every other line is rejected with the message of the
    property and the type is asked again. *)
Theorem C5_trigger_type_values
  (l : string) (rest : list string) (h : history) (acc : list event) :
  let line := effective type_field l in
  trigger_types = ["cron"; "message"; "success"; "failure"]
  /\ (In line trigger_types ->
      getInput "type" type_field
        {| stdin := l :: rest; hist := h; shown := acc |}
      = ({| stdin := rest; hist := remember "type" line h;
            shown := (acc ++ [Asked (description type_field)])%list |},
         Ok line))
  /\ (~ In line trigger_types ->
      getInput "type" type_field
        {| stdin := l :: rest; hist := h; shown := acc |}
      = getInput "type" type_field
          {| stdin := rest; hist := h;
             shown := ((acc ++ [Asked (description type_field)])
                       ++ [LogError type_message])%list |}).
Proof.
  intros line. split; [reflexivity|].
  assert (Ht : truthy line = true)
    by (unfold line, effective; now destruct l).
  assert (Hv : validate type_field (if truthy line then Some line else None)
               = existsb (String.eqb line) trigger_types)
    by (now rewrite Ht).
  split; intros Hin.
  - rewrite getInput_accept; [reflexivity | exact I |].
    fold line. rewrite Hv. now apply existsb_eqb_In.
  - rewrite getInput_reject; [reflexivity | reflexivity |].
    fold line. rewrite Hv.
    destruct (existsb (String.eqb line) trigger_types) eqn:E;
      [|reflexivity].
    apply existsb_eqb_In in E. contradiction.
Qed.

Lemma C5_trigger_type_values_witness :
  getInput "type" type_field (typing ["message"; "n"])
  = ({| stdin := ["n"]; hist := [("type", "message")];
        shown := [Asked (description type_field)] |},
     Ok "message")
  /\ getInput "type" type_field (typing ["scheduled"; "cron"])
     = getInput "type" type_field
         {| stdin := ["cron"]; hist := [];
            shown := [Asked (description type_field);
                      LogError type_message] |}.
Proof.
  split.
  - apply (proj1 (proj2 (C5_trigger_type_values "message" ["n"] [] []))).
    cbn. tauto.
  - apply (proj2 (proj2 (C5_trigger_type_values "scheduled" ["cron"] [] []))).
    cbn. intuition discriminate.
Defined.

End FormFacts.

Section TriggerFacts.
Import Js Prompt Generator GeneratorExamples.

Ltac next_field := rewrite get_from_cons; cbn [fst snd].
Ltac skipped :=
  next_field; erewrite getInput_skip by reflexivity;
  cbn [or_else default_or_empty default asked_when truthy].
Ltac answered :=
  next_field;
  rewrite getInput_accept
    by (first [reflexivity | exact I | apply validate_lenient; reflexivity]).

(** The properties that are not asked still answer: [cron] and
    [criteria] with their defaults, [success] and [failure] with the
    empty string. *)
Lemma message_trigger_answers (nonce : string) (ts : obj (obj string))
  (h : history) (acc : list event) (n x a : string) (rest : list string) :
  truthy n = true -> has_key n ts = false ->
  snd (get (triggerForm nonce ts)
         {| stdin := n :: "message" :: x :: a :: rest;
            hist := h; shown := acc |})
  = Ok (message_answers n x a).
Proof.
  intros Hn Hk. unfold get, triggerForm.
  next_field. rewrite name_accept by assumption.
  answered. cbn [effective truthy apply_before before type_field snd fst].
  skipped. answered. skipped. skipped. answered.
  cbn [get_from snd]. f_equal.
  destruct x, a; reflexivity.
Qed.

Lemma success_trigger_answers (nonce : string) (ts : obj (obj string))
  (h : history) (acc : list event) (n x a : string) (rest : list string) :
  truthy n = true -> has_key n ts = false ->
  snd (get (triggerForm nonce ts)
         {| stdin := n :: "success" :: x :: a :: rest;
            hist := h; shown := acc |})
  = Ok (success_answers n x a).
Proof.
  intros Hn Hk. unfold get, triggerForm.
  next_field. rewrite name_accept by assumption.
  answered. cbn [effective truthy apply_before before type_field snd fst].
  skipped. skipped. answered. skipped. answered.
  cbn [get_from snd]. f_equal.
  destruct x, a; reflexivity.
Qed.

(** Every trigger of type message is stored with the default of [cron]
    beside its criteria. *)
Lemma message_trigger_step (nonce : string) (ts : obj (obj string))
  (h : history) (acc : list event) (n x a : string) (rest : list string)
  (fuel : nat) :
  truthy n = true -> has_key n ts = false ->
  let s := {| stdin := n :: "message" :: x :: a :: rest;
              hist := h; shown := acc |} in
  let s' := fst (get (triggerForm nonce ts) s) in
  let ts' :=
    obj_set (snd (name_before n))
      [("type", "message"); ("cron", "* * * * *");
       ("criteria", if truthy x then x else criteria_default)] ts in
  addTrigger nonce (S fuel) ts s
  = if String.eqb a "y" then addTrigger nonce fuel ts' s'
    else (ts', show [Log "OK. Triggers written."] s', Ok tt).
Proof.
  intros Hn Hk s s' ts'. rewrite addTrigger_step.
  pose proof (message_trigger_answers nonce ts h acc n x a rest Hn Hk) as Ha.
  fold s in Ha. subst s'.
  destruct (get (triggerForm nonce ts) s) as [s1 r]. cbn [snd fst] in *.
  subst r. cbn zeta.
  replace (field "another" (message_answers n x a)) with a by reflexivity.
  replace (field "name" (message_answers n x a)) with (snd (name_before n))
    by reflexivity.
  replace (removeFalsy (rest_of (message_answers n x a)))
    with [("type", "message"); ("cron", "* * * * *");
          ("criteria", if truthy x then x else criteria_default)];
    [reflexivity|].
  destruct x; reflexivity.
Qed.

(** Every trigger of type success whose job is left blank is stored with
    the defaults of [cron] and [criteria], and without [success]. *)
Lemma blank_success_step (nonce : string) (ts : obj (obj string))
  (h : history) (acc : list event) (n a : string) (rest : list string)
  (fuel : nat) :
  truthy n = true -> has_key n ts = false ->
  let s := {| stdin := n :: "success" :: EmptyString :: a :: rest;
              hist := h; shown := acc |} in
  let s' := fst (get (triggerForm nonce ts) s) in
  let ts' :=
    obj_set (snd (name_before n))
      [("type", "success"); ("cron", "* * * * *");
       ("criteria", criteria_default)] ts in
  addTrigger nonce (S fuel) ts s
  = if String.eqb a "y" then addTrigger nonce fuel ts' s'
    else (ts', show [Log "OK. Triggers written."] s', Ok tt).
Proof.
  intros Hn Hk s s' ts'. rewrite addTrigger_step.
  pose proof (success_trigger_answers nonce ts h acc n EmptyString a rest
                Hn Hk) as Ha.
  fold s in Ha. subst s'.
  destruct (get (triggerForm nonce ts) s) as [s1 r]. cbn [snd fst] in *.
  subst r. reflexivity.
Qed.

(** C6: the trigger loop at the answers [on-ping], [message], [inbound],
    [n].  The record stored for the trigger of type message holds the
    criteria, and beside it the cron expression that was never asked
    for. *)
Theorem C6_message_trigger_record :
  fst (fst (addTrigger "shy" (enough (typing ["on-ping"; "message"; "inbound"; "n"]))
              [] (typing ["on-ping"; "message"; "inbound"; "n"])))
  = [("on-ping",
      [("type", "message"); ("cron", "* * * * *"); ("criteria", "inbound")])].
Proof. vm_compute. reflexivity. Qed.

(** C9: the trigger loop at the answers [after-load], [success], an empty
    line, [n].  The record stored holds the type and no [success], and it
    holds the two defaults of the properties that were not asked: two
    type-specific fields, not zero. *)
Theorem C9_blank_success_record :
  fst (fst (addTrigger "shy" (enough (typing ["after-load"; "success"; EmptyString; "n"]))
              [] (typing ["after-load"; "success"; EmptyString; "n"])))
  = [("after-load",
      [("type", "success"); ("cron", "* * * * *");
       ("criteria", criteria_default)])].
Proof. vm_compute. reflexivity. Qed.

(** C10: the trigger loop at two forms, the first named [a-b], the
    second proposed as [a b].  The duplicate check sees the line as
    typed, the hook stores it as [a-b]: the second form adds no entry and
    replaces the record of the first. *)
Theorem C10_second_form_overwrites :
  let first := typing ["a-b"; "cron"; "0 0 * * *"; "n"] in
  let both :=
    typing ["a-b"; "cron"; "0 0 * * *"; "y";
            "a b"; "message"; "inbound"; "n"] in
  fst (fst (addTrigger "shy" (enough first) [] first))
  = [("a-b",
      [("type", "cron"); ("cron", "0 0 * * *");
       ("criteria", criteria_default)])]
  /\ fst (fst (addTrigger "shy" (enough both) [] both))
     = [("a-b",
         [("type", "message"); ("cron", "* * * * *");
          ("criteria", "inbound")])]
  /\ snd (addTrigger "shy" (enough both) [] both) = Ok tt.
Proof. repeat split; vm_compute; reflexivity. Qed.

End TriggerFacts.

Section AssemblyFacts.
Import Js Prompt Generator GeneratorExamples.

Lemma obj_put_fresh {V : Type} (k : string) (v : V) (o : obj V) :
  has_key k o = false -> obj_put k v o = (o ++ [(k, v)])%list.
Proof.
  unfold has_key, obj_keys.
  induction o as [|[k' v'] t IH]; cbn; [reflexivity|].
  destruct (String.eqb k k'); cbn; [discriminate|].
  intros H. now rewrite IH.
Qed.

Lemma has_key_app {V : Type} (k : string) (o1 o2 : obj V) :
  has_key k (o1 ++ o2)%list = has_key k o1 || has_key k o2.
Proof. unfold has_key, obj_keys. now rewrite map_app, existsb_app. Qed.

Lemma obj_get_first {V : Type} (k : string) (v : V) (o : obj V) :
  NoDup (obj_keys o) -> In (k, v) o -> obj_get k o = Some v.
Proof.
  induction o as [|[k' v'] t IH]; cbn; [contradiction|].
  intros Hnd [Heq | Hin].
  - inversion Heq; subst. now rewrite String.eqb_refl.
  - inversion Hnd as [|? ? Hnotin Hnd']; subst.
    destruct (String.eqb_spec k k') as [-> | Hne]; [|now apply IH].
    exfalso. apply Hnotin. change (In (fst (k', v)) (map fst t)).
    now apply in_map.
Qed.

(** A plain object never holds [__proto__] as an own property. *)
Lemma obj_set_no_proto {V : Type} (k : string) (v : V) (o : obj V) :
  ~ In "__proto__" (obj_keys o) ->
  ~ In "__proto__" (obj_keys (obj_set k v o)).
Proof.
  intros Hno. unfold obj_set.
  destruct (String.eqb_spec k "__proto__") as [-> | Hne]; [assumption|].
  rewrite obj_keys_put. destruct (has_key k o); [assumption|].
  rewrite in_app_iff. intros [H | [H | []]]; [now apply Hno | now apply Hne].
Qed.

Lemma addCredential_no_proto (nonce : string) :
  forall fuel o s,
    ~ In "__proto__" (obj_keys o) ->
    ~ In "__proto__" (obj_keys (fst (fst (addCredential nonce fuel o s)))).
Proof.
  intros fuel; induction fuel as [|fuel IH]; intros o s Hno; [exact Hno|].
  rewrite addCredential_step.
  destruct (get _ s) as [s' [answers| | |]]; cbn zeta; try exact Hno.
  destruct (String.eqb _ "y"); [apply IH | cbn [fst]];
    apply obj_set_no_proto; exact Hno.
Qed.

Section Reading.
Variable readFileSync : string -> string + string.

Lemma inline_credentials_ok (old : obj string) :
  forall (l : obj string) (acc : obj string),
    (forall k p, In (k, p) l -> obj_get k old = Some p) ->
    NoDup (obj_keys l) ->
    ~ In "__proto__" (obj_keys l) ->
    (forall k, In k (obj_keys l) -> has_key k acc = false) ->
    (forall k p, In (k, p) l -> exists text, readFileSync p = inr text) ->
    exists new,
      inline_credentials readFileSync old (obj_keys l) acc
      = Ok (acc ++ new)%list
      /\ Forall2 (inlined readFileSync) l new.
Proof.
  induction l as [|[k p] t IH]; intros acc Hget Hnd Hno Hfresh Hread.
  - exists []. rewrite app_nil_r. split; constructor.
  - cbn [obj_keys map fst inline_credentials] in *.
    rewrite (Hget k p) by now left.
    destruct (Hread k p) as [text Ht]; [now left|]. rewrite Ht.
    inversion Hnd as [|? ? Hnotin Hnd']; subst.
    unfold obj_set.
    destruct (String.eqb_spec k "__proto__") as [-> | Hne];
      [exfalso; apply Hno; now left|].
    rewrite obj_put_fresh by (apply Hfresh; now left).
    destruct (IH (acc ++ [(k, text)])%list) as (new & Hnew & Hall).
    + intros k' p' Hin. apply Hget. now right.
    + exact Hnd'.
    + intros Hin. apply Hno. now right.
    + intros k' Hin. rewrite has_key_app, Hfresh by now right.
      unfold has_key. cbn.
      destruct (String.eqb_spec k' k) as [-> | _]; [contradiction|reflexivity].
    + intros k' p' Hin. apply (Hread k' p'). now right.
    + exists ((k, text) :: new). fold (obj_keys t). rewrite Hnew.
      rewrite <- app_assoc. split; [reflexivity|].
      constructor; [split; [reflexivity | exact Ht] | exact Hall].
Qed.

Lemma inline_credentials_fails (old : obj string) :
  forall (l : obj string) (acc : obj string),
    (forall k p, In (k, p) l -> obj_get k old = Some p) ->
    (exists k p err, In (k, p) l /\ readFileSync p = inl err) ->
    exists k p err,
      In (k, p) l /\ readFileSync p = inl err
      /\ inline_credentials readFileSync old (obj_keys l) acc = Rejected err.
Proof.
  induction l as [|[k p] t IH]; intros acc Hget (k0 & p0 & e & Hin & Hbad).
  - contradiction.
  - cbn [obj_keys map fst inline_credentials].
    rewrite (Hget k p) by now left.
    destruct (readFileSync p) as [err | text] eqn:Hp.
    + exists k, p, err. repeat split; [now left | exact Hp].
    + destruct (IH (obj_set k text acc)) as (k1 & p1 & e1 & Hin1 & Hbad1 & Hrun).
      * intros k' p' Hin'. apply Hget. now right.
      * destruct Hin as [Heq | Hin]; [inversion Heq; subst; congruence|].
        now exists k0, p0, e.
      * exists k1, p1, e1. repeat split; [now right | exact Hbad1 | exact Hrun].
Qed.

Variable dump :
  obj (obj string) -> obj string -> obj (obj string) -> string.
Variable writeFileSync : string -> string -> option string.

(** In monolith mode the job names are looked at after the credentials:
    with one job or more the last step shows nothing, writes nothing and
    is rejected. *)
Lemma monolith_with_jobs_writes_nothing (st : state) :
  type st = "monolith" -> jobs st <> [] ->
  snd (fst (assemble dump readFileSync writeFileSync st)) = []
  /\ snd (assemble dump readFileSync writeFileSync st) <> Ok tt.
Proof.
  intros Hm Hj. unfold assemble, monolith. rewrite Hm.
  replace ("monolith" =? "monolith")%string with true by reflexivity.
  destruct (inline_credentials readFileSync (credentials st)
              (obj_keys (credentials st)) []) as [creds|m|m|];
    cbn; try (split; [reflexivity | discriminate]).
  unfold inline_jobs. destruct (jobs st); [contradiction|].
  cbn. split; [reflexivity | discriminate].
Qed.

(** C4, as stated, fails on the exit code: a run in monolith mode whose
    credential file cannot be read logs the error, writes nothing, and
    ends with exit code 0. *)
Lemma C4_counterexample :
  let run :=
    main "shy" "coy" "wry" to_text one_file writable
      ["./out.yaml"; "monolith";
       "nightly"; "cron"; "0 0 * * *"; "n";
       "dhis2"; "./missing.json"; "n";
       "sync"; "./sync.js"; EmptyString; "nightly"; "dhis2"; "n"] in
  type (final run) = "monolith"
  /\ credentials (final run) = [("dhis2", "./missing.json")]
  /\ one_file "./missing.json"
     = inl "ENOENT: no such file or directory, open './missing.json'"
  /\ last (trace run) (Log EmptyString)
     = failure_log "ENOENT: no such file or directory, open './missing.json'"
  /\ filter (fun e => match e with WriteFile _ _ => true | _ => false end)
       (trace run) = []
  /\ exit_code run = 0%Z.
Proof. repeat split; vm_compute; reflexivity. Qed.

End Reading.

End AssemblyFacts.

(* ===================================================================== *)
(** ** More on the release uploader *)
(* ===================================================================== *)

Section UploaderMore.
Import Js Regex Uploader UploaderExamples UploaderShapes.

(** What a run needs before it sends anything: a token, and a string
    after [-i] from which both patterns derive a target. *)
Lemma main_cases (a : argv) (w : world) :
  (exists msg, main a w = die msg)
  \/ exists tok file tag repo,
      GH_TOKEN w = Some tok /\ truthy tok = true
      /\ arg_i a = ArgString file
      /\ derive_target file = Some (tag, repo).
Proof.
  unfold main.
  destruct (GH_TOKEN w) as [[|c tok]|] eqn:Htok; try (left; eauto; fail).
  destruct (arg_i a) as [|b|n|file] eqn:Hi; cbn [arg_truthy];
    try (destruct (negb _); left; eauto; fail).
  destruct (negb (truthy file)); [left; eauto|].
  destruct (match1 re_tag file) as [v|] eqn:Hv; [|left; eauto].
  destruct (match1 re_repo file) as [repo|] eqn:Hr; [|left; eauto].
  right. exists (String c tok), file, ("v" ++ v), repo.
  repeat split; try reflexivity.
  unfold derive_target. now rewrite Hv, Hr.
Qed.

Ltac open_chain :=
  unfold findBuildFor, uploadUnlessExists, settle, bind, emit, lift, ret,
    throw, logError;
  cbn [fst snd app].

Ltac split_world :=
  repeat
    (cbn;
     match goal with
     | |- context [getReleaseByTag ?w ?o ?r ?t] =>
         destruct (getReleaseByTag w o r t) eqn:?
     | |- context [ext_code_404 ?e] => destruct (ext_code_404 e) eqn:?
     | |- context [existing_asset ?r] => destruct (existing_asset r) eqn:?
     | |- context [statSync ?w ?f] => destruct (statSync w f) eqn:?
     | |- context [Z.eqb ?x ?y] => destruct (Z.eqb x y) eqn:?
     | |- context [arg_u ?a] => destruct (arg_u a) eqn:?
     | |- context [deleteReleaseAsset ?w ?o ?r ?i] =>
         destruct (deleteReleaseAsset w o r i) eqn:?
     | |- context [readFileSync ?w ?f] => destruct (readFileSync w f) eqn:?
     | |- context [uploadReleaseAsset ?w ?o ?r ?n ?i ?d] =>
         destruct (uploadReleaseAsset w o r n i d) eqn:?
     | |- context [ext_status_enoent ?e] =>
         destruct (ext_status_enoent e) eqn:?
     | |- context [arg_d ?a] => destruct (arg_d a) eqn:?
     end);
  cbn.

(** X1: a run sends a request only when a non-empty token is set and the
    value of [-i] is a string from which both patterns derive a target,
    and its first request is then the lookup of that tag in that
    repository of OpenFn; every other run prints one line and exits with
    code 1. *)
Theorem X1_requests_need_token_and_target (a : argv) (w : world) :
  (requests (trace (main a w)) = []
   /\ exit_code (main a w) = 1%Z
   /\ exists msg, trace (main a w) = [ConsoleLog msg])
  \/ exists tok file tag repo more,
      GH_TOKEN w = Some tok /\ truthy tok = true
      /\ arg_i a = ArgString file
      /\ derive_target file = Some (tag, repo)
      /\ requests (trace (main a w))
         = ReqGetReleaseByTag owner repo tag :: more.
Proof.
  destruct (main_cases a w) as [[msg H] | (tok & file & tag & repo & H)].
  - left. rewrite H. cbn. eauto.
  - right. destruct H as (Htok & Ht & Hi & Hd).
    rewrite (main_chain a w tok file tag repo Htok Ht Hi Hd).
    exists tok, file, tag, repo.
    open_chain. split_world; eexists;
      (repeat split); try eassumption; try reflexivity.
Qed.

(** X2: whatever the world answers, a run sends the lookup first, then at
    most one delete and at most one upload, the delete before the upload;
    a delete is sent only under [-u], and an upload always carries the
    name build.tgz. *)
Theorem X2_request_sequences (a : argv) (w : world) :
  let rs := requests (trace (main a w)) in
  rs = []
  \/ exists repo tag,
      rs = [ReqGetReleaseByTag owner repo tag]
      \/ (exists id,
            arg_u a = true
            /\ rs = [ReqGetReleaseByTag owner repo tag;
                     ReqDeleteReleaseAsset owner repo id])
      \/ (exists id rid data,
            arg_u a = true
            /\ rs = [ReqGetReleaseByTag owner repo tag;
                     ReqDeleteReleaseAsset owner repo id;
                     ReqUploadReleaseAsset owner repo "build.tgz" rid data])
      \/ (exists rid data,
            rs = [ReqGetReleaseByTag owner repo tag;
                  ReqUploadReleaseAsset owner repo "build.tgz" rid data]).
Proof.
  destruct (main_cases a w) as [[msg H] | (tok & file & tag & repo & H)].
  - left. rewrite H. reflexivity.
  - right. destruct H as (Htok & Ht & Hi & Hd).
    rewrite (main_chain a w tok file tag repo Htok Ht Hi Hd).
    exists repo, tag. open_chain. split_world;
      solve [ left; reflexivity
            | right; left; eexists; split; reflexivity
            | right; right; left; do 3 eexists; split; reflexivity
            | right; right; right; do 2 eexists; reflexivity ].
Qed.

(** X3: the exit code is 0, 1 or 2.  It is 0 only after exactly one
    upload whose download URL is the last thing printed; it is 2 only when
    neither a delete nor an upload was sent and the last thing logged is
    an AlreadyExists error. *)
Theorem X3_exit_codes (a : argv) (w : world) :
  let t := trace (main a w) in
  (exit_code (main a w) = 0 \/ exit_code (main a w) = 1
   \/ exit_code (main a w) = 2)%Z
  /\ (exit_code (main a w) = 0%Z ->
      exists repo rid data url,
        uploads t = [ReqUploadReleaseAsset owner repo "build.tgz" rid data]
        /\ uploadReleaseAsset w owner repo "build.tgz" rid data = inr url
        /\ last t (ConsoleLog EmptyString)
           = ConsoleLog ("✓ Build uploaded as release asset: " ++ url))
  /\ (exit_code (main a w) = 2%Z ->
      uploads t = [] /\ deletes t = []
      /\ exists m,
          last t (ConsoleLog EmptyString) = logError a (AlreadyExists m)).
Proof.
  destruct (main_cases a w) as [[msg H] | (tok & file & tag & repo & H)].
  - rewrite H. cbn. repeat split; auto; discriminate.
  - destruct H as (Htok & Ht & Hi & Hd).
    rewrite (main_chain a w tok file tag repo Htok Ht Hi Hd).
    open_chain. split_world;
      (split; [auto | split]);
      intros Hc; try discriminate Hc;
      first
        [ do 4 eexists;
          (split; [reflexivity | split; [eassumption | reflexivity]])
        | split; [reflexivity | split; [reflexivity | eexists; reflexivity]] ].
Qed.

(** X4: when the lookup of the release fails, nothing else is requested
    and the run exits with code 1; a 404 is reported as
    [<tag> does not exist for repo: <repo>], any other error as it
    came. *)
Theorem X4_lookup_failure (a : argv) (w : world)
  (tok file tag repo : string) (e : ext_error) :
  GH_TOKEN w = Some tok -> truthy tok = true ->
  arg_i a = ArgString file ->
  derive_target file = Some (tag, repo) ->
  getReleaseByTag w owner repo tag = inl e ->
  main a w
  = {| trace :=
         [ReqGetReleaseByTag owner repo tag;
          logError a
            (if ext_code_404 e
             then Error (tag ++ " does not exist for repo: " ++ repo)
             else External e)];
       exit_code := 1 |}.
Proof.
  intros Htok Ht Hi Hd Hrel.
  rewrite (main_chain a w tok file tag repo Htok Ht Hi Hd).
  open_chain. rewrite Hrel. now destruct (ext_code_404 e).
Qed.

Lemma X4_lookup_failure_witness :
  main (args "./builds/myrepo-v1.2.3.tgz" false) (no_release "token")
  = {| trace :=
         [ReqGetReleaseByTag owner "myrepo" "v1.2.3";
          ConsoleError "v1.2.3 does not exist for repo: myrepo"];
       exit_code := 1 |}.
Proof.
  apply (X4_lookup_failure (args "./builds/myrepo-v1.2.3.tgz" false)
           (no_release "token") "token" "./builds/myrepo-v1.2.3.tgz"
           "v1.2.3" "myrepo" not_found);
    reflexivity.
Defined.

(** X5: the flag [-d] changes how the final error is logged and nothing
    else: with and without it the run sends the same requests, prints the
    same lines with [console.log] and exits with the same code. *)
Theorem X5_debug_only_changes_the_error_log (a : argv) (w : world) :
  let quiet := with_debug a false in
  let loud := with_debug a true in
  exit_code (main loud w) = exit_code (main quiet w)
  /\ requests (trace (main loud w)) = requests (trace (main quiet w))
  /\ filter is_console_log (trace (main loud w))
     = filter is_console_log (trace (main quiet w)).
Proof.
  intros quiet loud.
  destruct (main_cases quiet w) as [[msg H] | (tok & file & tag & repo & H)].
  - assert (H' : main loud w = die msg).
    { revert H. unfold main, quiet, loud, with_debug. cbn [arg_i].
      destruct (GH_TOKEN w) as [[|c tok]|]; auto.
      destruct (negb (arg_truthy (arg_i a))); auto.
      destruct (arg_i a); auto.
      destruct (match1 re_tag s); auto.
      destruct (match1 re_repo s); auto.
      unfold die. open_chain. split_world; discriminate. }
    rewrite H, H'. repeat split.
  - destruct H as (Htok & Ht & Hi & Hd).
    rewrite (main_chain quiet w tok file tag repo Htok Ht Hi Hd).
    rewrite (main_chain loud w tok file tag repo Htok Ht Hi Hd).
    unfold quiet, loud, with_debug.
    open_chain. cbn [arg_u arg_d]. split_world; repeat split.
Qed.

(** X6: an upload that the API refuses ends the run with exit code 1.
    An error whose status is ENOENT is logged as it came; any other is
    printed and replaced by [Upload Failed.]. *)
Theorem X6_upload_failure (a : argv) (w : world)
  (tok file tag repo data : string) (rel : release) (e : ext_error) :
  GH_TOKEN w = Some tok -> truthy tok = true ->
  arg_i a = ArgString file ->
  derive_target file = Some (tag, repo) ->
  getReleaseByTag w owner repo tag = inr rel ->
  existing_asset rel = None ->
  readFileSync w file = inr data ->
  uploadReleaseAsset w owner repo "build.tgz" (release_id rel) data = inl e ->
  main a w
  = {| trace :=
         [ReqGetReleaseByTag owner repo tag;
          ConsoleLog "Uploading release asset.";
          ReqUploadReleaseAsset owner repo "build.tgz" (release_id rel) data]
         ++ (if ext_status_enoent e then [logError a (External e)]
             else [ConsoleLogObj e; logError a (Error "Upload Failed.")]);
       exit_code := 1 |}.
Proof.
  intros Htok Ht Hi Hd Hrel Hex Hread Hup.
  rewrite (main_chain a w tok file tag repo Htok Ht Hi Hd).
  open_chain. rewrite Hrel, Hex. cbn. rewrite Hread. cbn. rewrite Hup.
  now destruct (ext_status_enoent e).
Qed.

Lemma X6_upload_failure_witness :
  main (args "./builds/myrepo-v1.2.3.tgz" false) (failing_upload [])
  = {| trace :=
         [ReqGetReleaseByTag owner "myrepo" "v1.2.3";
          ConsoleLog "Uploading release asset.";
          ReqUploadReleaseAsset owner "myrepo" "build.tgz" 7 "0123456789";
          ConsoleLogObj unreachable;
          ConsoleError "Upload Failed."];
       exit_code := 1 |}.
Proof.
  apply (X6_upload_failure (args "./builds/myrepo-v1.2.3.tgz" false)
           (failing_upload []) "token" "./builds/myrepo-v1.2.3.tgz"
           "v1.2.3" "myrepo" "0123456789"
           {| release_id := 7; release_assets := [] |} unreachable);
    reflexivity.
Defined.

(** X7: a local artifact that cannot be examined or read ends the run
    with exit code 1 and no upload.  When an asset named build.tgz
    exists, a failing [statSync] stops the run before any delete; when
    the sizes differ under [-u] and the delete went through, a failing
    [readFileSync] leaves the release without the asset. *)
Theorem X7_local_file_errors (a : argv) (w : world)
  (tok file tag repo : string) (rel : release) (e : ext_error) :
  GH_TOKEN w = Some tok -> truthy tok = true ->
  arg_i a = ArgString file ->
  derive_target file = Some (tag, repo) ->
  getReleaseByTag w owner repo tag = inr rel ->
  (forall ex,
      existing_asset rel = Some ex ->
      statSync w file = inl e ->
      main a w
      = {| trace := [ReqGetReleaseByTag owner repo tag;
                     logError a (External e)];
           exit_code := 1 |})
  /\ (existing_asset rel = None ->
      readFileSync w file = inl e ->
      main a w
      = {| trace := [ReqGetReleaseByTag owner repo tag;
                     ConsoleLog "Uploading release asset.";
                     logError a (External e)];
           exit_code := 1 |})
  /\ (forall ex localSize,
      existing_asset rel = Some ex ->
      statSync w file = inr localSize ->
      localSize <> asset_size ex ->
      arg_u a = true ->
      deleteReleaseAsset w owner repo (asset_id ex) = inr tt ->
      readFileSync w file = inl e ->
      main a w
      = {| trace := [ReqGetReleaseByTag owner repo tag;
                     ReqDeleteReleaseAsset owner repo (asset_id ex);
                     ConsoleLog "Uploading release asset.";
                     logError a (External e)];
           exit_code := 1 |}).
Proof.
  intros Htok Ht Hi Hd Hrel.
  rewrite (main_chain a w tok file tag repo Htok Ht Hi Hd).
  repeat split.
  - intros ex Hex Hstat. open_chain. now rewrite Hrel, Hex, Hstat.
  - intros Hex Hread. open_chain. rewrite Hrel, Hex. cbn.
    now rewrite Hread.
  - intros ex localSize Hex Hstat Hne Hu Hdel Hread.
    open_chain. rewrite Hrel, Hex, Hstat, Hu. cbn.
    destruct (Z.eqb_spec localSize (asset_size ex)); [contradiction|].
    cbn. rewrite Hdel. cbn. now rewrite Hread.
Qed.

Lemma X7_local_file_errors_witness :
  main (args "./builds/myrepo-v1.2.3.tgz" true) (lost_artifact [build 12])
  = {| trace := [ReqGetReleaseByTag owner "myrepo" "v1.2.3";
                 ReqDeleteReleaseAsset owner "myrepo" 31;
                 ConsoleLog "Uploading release asset.";
                 ConsoleError "ENOENT: no such file or directory"];
       exit_code := 1 |}.
Proof.
  apply (proj2 (proj2 (X7_local_file_errors
           (args "./builds/myrepo-v1.2.3.tgz" true)
           (lost_artifact [build 12]) "token" "./builds/myrepo-v1.2.3.tgz"
           "v1.2.3" "myrepo"
           {| release_id := 7; release_assets := [build 12] |} missing_file
           eq_refl eq_refl eq_refl eq_refl eq_refl))
         (build 12) 10%Z eq_refl eq_refl ltac:(discriminate) eq_refl
         eq_refl eq_refl).
Defined.

(** X21: the exit code is 2 exactly when the run got as far as the
    release, found an asset named build.tgz on it, could measure the
    local artifact, and either the sizes are equal or [-u] is not set. *)
Theorem X21_exit_code_2_exactly (a : argv) (w : world) :
  exit_code (main a w) = 2%Z
  <-> exists tok file tag repo rel ex localSize,
      GH_TOKEN w = Some tok /\ truthy tok = true
      /\ arg_i a = ArgString file
      /\ derive_target file = Some (tag, repo)
      /\ getReleaseByTag w owner repo tag = inr rel
      /\ existing_asset rel = Some ex
      /\ statSync w file = inr localSize
      /\ (localSize = asset_size ex \/ arg_u a = false).
Proof.
  split.
  - destruct (main_cases a w) as [[msg H] | (tok & file & tag & repo & H)].
    + rewrite H. discriminate.
    + destruct H as (Htok & Ht & Hi & Hd).
      rewrite (main_chain a w tok file tag repo Htok Ht Hi Hd).
      open_chain. split_world; try discriminate; intros _;
        do 7 eexists; repeat (split; [eassumption|]);
        first [ left; now apply Z.eqb_eq | right; reflexivity ].
  - intros (tok & file & tag & repo & rel & ex & localSize
            & Htok & Ht & Hi & Hd & Hrel & Hex & Hstat & Hcase).
    rewrite (main_chain a w tok file tag repo Htok Ht Hi Hd).
    open_chain. rewrite Hrel, Hex, Hstat. cbn.
    destruct (Z.eqb_spec localSize (asset_size ex)) as [Heq | Hne];
      [reflexivity|].
    destruct Hcase as [? | Hu]; [contradiction|]. now rewrite Hu.
Qed.

(** X22: the exit code is 0 exactly when the release was found, no asset
    named build.tgz stood in the way (none existed, or one of another size
    was deleted under [-u]), the artifact could be read and the upload
    succeeded. *)
Theorem X22_exit_code_0_exactly (a : argv) (w : world) :
  exit_code (main a w) = 0%Z
  <-> exists tok file tag repo rel data url,
      GH_TOKEN w = Some tok /\ truthy tok = true
      /\ arg_i a = ArgString file
      /\ derive_target file = Some (tag, repo)
      /\ getReleaseByTag w owner repo tag = inr rel
      /\ (existing_asset rel = None
          \/ exists ex localSize,
              existing_asset rel = Some ex
              /\ statSync w file = inr localSize
              /\ localSize <> asset_size ex
              /\ arg_u a = true
              /\ deleteReleaseAsset w owner repo (asset_id ex) = inr tt)
      /\ readFileSync w file = inr data
      /\ uploadReleaseAsset w owner repo "build.tgz" (release_id rel) data
         = inr url.
Proof.
  split.
  - destruct (main_cases a w) as [[msg H] | (tok & file & tag & repo & H)].
    + rewrite H. discriminate.
    + destruct H as (Htok & Ht & Hi & Hd).
      rewrite (main_chain a w tok file tag repo Htok Ht Hi Hd).
      open_chain. split_world; try discriminate; intros _;
        do 7 eexists; repeat (split; [eassumption|]);
        (split; [|split; eassumption]);
        first
          [ right; do 2 eexists; repeat (split; [eassumption|]);
            split; [now apply Z.eqb_neq|];
            split; [reflexivity|];
            match goal with
            | H : deleteReleaseAsset _ _ _ _ = inr ?u |- _ =>
                destruct u; exact H
            end
          | left; eassumption ].
  - intros (tok & file & tag & repo & rel & data & url
            & Htok & Ht & Hi & Hd & Hrel & Hcase & Hread & Hup).
    rewrite (main_chain a w tok file tag repo Htok Ht Hi Hd).
    open_chain. rewrite Hrel.
    destruct Hcase as [Hex | (ex & localSize & Hex & Hstat & Hne & Hu & Hdel)].
    + rewrite Hex. cbn. rewrite Hread. cbn. now rewrite Hup.
    + rewrite Hex, Hstat, Hu. cbn.
      destruct (Z.eqb_spec localSize (asset_size ex)); [contradiction|].
      cbn. rewrite Hdel. cbn. rewrite Hread. cbn. now rewrite Hup.
Qed.

End UploaderMore.

(* ===================================================================== *)
(** ** What the two patterns of the uploader accept *)
(* ===================================================================== *)

Section PatternFacts.
Import Js Regex Uploader Text.

Lemma append_assoc (a b c : string) : (a ++ b) ++ c = a ++ (b ++ c).
Proof. induction a as [|x a IH]; cbn; [reflexivity | now rewrite IH]. Qed.

Lemma length_append (a b : string) :
  String.length (a ++ b) = String.length a + String.length b.
Proof. induction a as [|x a IH]; cbn; [reflexivity | now rewrite IH]. Qed.

Lemma substring_prefix (a b : string) :
  substring 0 (String.length a) (a ++ b) = a.
Proof. induction a as [|x a IH]; cbn; [now destruct b | now rewrite IH]. Qed.

Lemma consumed_append (a b : string) : consumed (a ++ b) b = a.
Proof.
  unfold consumed. rewrite length_append.
  replace (String.length a + String.length b - String.length b)
    with (String.length a) by lia.
  apply substring_prefix.
Qed.

(** What [plus] hands to its continuation is what is left after a
    non-empty run of the class. *)
Lemma plus_sound (R : Type) (p : ascii -> bool) (s : string)
  (k : string -> option R) (x : R) :
  plus R p s k = Some x ->
  exists pre t, s = pre ++ t /\ run_of p pre /\ k t = Some x.
Proof.
  revert x. induction s as [|c s IH]; intros x; cbn; [discriminate|].
  destruct (p c) eqn:Hc; [|discriminate].
  destruct (plus R p s k) as [y|] eqn:Hy.
  - intros H; inversion H; subst.
    destruct (IH x eq_refl) as (pre & t & -> & [_ Hall] & Hk).
    exists (String c pre), t. repeat split; try assumption.
    + discriminate.
    + cbn. now rewrite Hc.
  - intros Hk. exists (String c EmptyString), s.
    repeat split; try assumption.
    + discriminate.
    + cbn. now rewrite Hc.
Qed.

Lemma lits_sound (R : Type) (l s : string) (caps : list string)
  (k : string -> list string -> option R) (x : R) :
  run R (lits l) s caps k = Some x ->
  exists t, s = l ++ t /\ k t caps = Some x.
Proof.
  revert s. induction l as [|c l IH]; intros s; cbn.
  - intros H. now exists s.
  - destruct s as [|d s]; [discriminate|].
    destruct (Ascii.eqb_spec c d) as [<- | _]; [|discriminate].
    intros H. destruct (IH s H) as (t & -> & Hk). now exists t.
Qed.

(** [exec] finds its match at some place of the input. *)
Lemma exec_sound (r : regex) (s : string) (caps : list string) :
  exec r s = Some caps ->
  exists pre suf,
    s = pre ++ suf
    /\ run _ r suf [] (fun _ c => Some c) = Some caps.
Proof.
  induction s as [|c s IH]; cbn [exec].
  - destruct (run _ r EmptyString [] _) as [y|] eqn:E; [|discriminate].
    intros H; inversion H; subst. now exists EmptyString, EmptyString.
  - destruct (run _ r (String c s) [] _) as [y|] eqn:E.
    + intros H; inversion H; subst. now exists EmptyString, (String c s).
    + intros H. destruct (IH H) as (pre & suf & -> & Hr).
      now exists (String c pre), suf.
Qed.

Lemma lit_sound (R : Type) (c : ascii) (s : string)
  (k : string -> option R) (x : R) :
  match s with
  | String d t => if Ascii.eqb c d then k t else None
  | EmptyString => None
  end = Some x ->
  exists t, s = String c t /\ k t = Some x.
Proof.
  destruct s as [|d t]; [discriminate|].
  destruct (Ascii.eqb_spec c d) as [<- | _]; [|discriminate].
  intros H. now exists t.
Qed.

Lemma tag_pattern_sound (file v : string) :
  match1 re_tag file = Some v ->
  exists pre major minor patch,
    file = pre ++ v ++ ".tgz"
    /\ v = major ++ "." ++ minor ++ "." ++ patch
    /\ run_of is_digit major /\ run_of is_digit minor
    /\ run_of is_digit patch.
Proof.
  unfold match1. destruct (exec re_tag file) as [caps|] eqn:E; [|discriminate].
  intros H; inversion H; subst; clear H.
  destruct (exec_sound _ _ _ E) as (pre & suf & -> & Hr).
  unfold re_tag in Hr. cbn [run] in Hr.
  apply plus_sound in Hr as (major & t1 & -> & Hmaj & Hr).
  apply lit_sound in Hr as (t2 & -> & Hr).
  apply plus_sound in Hr as (minor & t3 & -> & Hmin & Hr).
  apply lit_sound in Hr as (t4 & -> & Hr).
  apply plus_sound in Hr as (patch & t5 & -> & Hpat & Hr).
  apply lits_sound in Hr as (t6 & -> & Hr).
  destruct t6; [|discriminate].
  change (".tgz" ++ "") with ".tgz" in *.
  inversion Hr; subst; clear Hr. cbn [app nth].
  exists pre, major, minor, patch.
  assert (Hs : major ++ String "." (minor ++ String "." (patch ++ ".tgz"))
               = (major ++ "." ++ minor ++ "." ++ patch) ++ ".tgz")
    by (repeat (rewrite append_assoc; cbn [append]); reflexivity).
  rewrite Hs, consumed_append.
  repeat split; try apply Hmaj; try apply Hmin; try apply Hpat.
Qed.

Lemma repo_pattern_sound (file repo : string) :
  match1 re_repo file = Some repo ->
  exists pre version,
    file = pre ++ "/" ++ repo ++ "-v" ++ version ++ ".tgz"
    /\ run_of is_word_or_dash repo
    /\ run_of is_digit_or_dot version.
Proof.
  unfold match1. destruct (exec re_repo file) as [caps|] eqn:E; [|discriminate].
  intros H; inversion H; subst; clear H.
  destruct (exec_sound _ _ _ E) as (pre & suf & -> & Hr).
  unfold re_repo in Hr. cbn [run] in Hr.
  apply lit_sound in Hr as (t1 & -> & Hr).
  apply plus_sound in Hr as (name & t2 & -> & Hname & Hr).
  apply lits_sound in Hr as (t3 & -> & Hr).
  apply plus_sound in Hr as (version & t4 & -> & Hver & Hr).
  apply lits_sound in Hr as (t5 & -> & Hr).
  destruct t5; [|discriminate].
  change (".tgz" ++ "") with ".tgz" in *.
  inversion Hr; subst; clear Hr. cbn [app nth].
  rewrite consumed_append.
  exists pre, version. repeat split; try apply Hname; try apply Hver.
Qed.

Lemma every_append (p : ascii -> bool) (a b : string) :
  every p (a ++ b) = every p a && every p b.
Proof.
  induction a as [|x a IH]; cbn; [reflexivity|].
  rewrite IH. now rewrite andb_assoc.
Qed.

Lemma append_eq_append (a b c d : string) :
  a ++ b = c ++ d ->
  (exists e, a = c ++ e /\ d = e ++ b)
  \/ (exists e, c = a ++ e /\ b = e ++ d).
Proof.
  revert c. induction a as [|x a IH]; intros c H.
  - right. exists c. now split.
  - destruct c as [|y c].
    + left. exists (String x a). now split.
    + cbn in H. inversion H; subst.
      destruct (IH c H2) as [(e & -> & ->) | (e & -> & ->)];
        [left | right]; exists e; now split.
Qed.

Lemma append_same_tail (a b t : string) : a ++ t = b ++ t -> a = b.
Proof.
  intros H.
  assert (Hl : String.length a = String.length b).
  { apply (f_equal String.length) in H. rewrite !length_append in H. lia. }
  destruct (append_eq_append _ _ _ _ H) as [(e & -> & _) | (e & -> & _)];
    rewrite length_append in Hl; destruct e; cbn in Hl; try lia;
    clear; induction a + induction b; cbn; congruence.
Qed.

Lemma digits_are_version_chars (s : string) :
  every is_digit s = true -> every is_digit_or_dot s = true.
Proof.
  induction s as [|c s IH]; cbn; [reflexivity|].
  intros H. apply andb_true_iff in H as [Hc Hs].
  rewrite (IH Hs). unfold is_digit_or_dot. now rewrite Hc.
Qed.

(** X8: when a target is derived, the file name ends with
    [/<repo>-v<version>.tgz], where the repository is a non-empty run of
    word characters and hyphens and the version a non-empty run of digits
    and dots; and the tag is [v] followed by three dot-separated numbers,
    which are the end of that version. *)
Theorem X8_derived_target_shape (file tag repo : string) :
  derive_target file = Some (tag, repo) ->
  exists dir version lead major minor patch,
    file = dir ++ "/" ++ repo ++ "-v" ++ version ++ ".tgz"
    /\ run_of is_word_or_dash repo
    /\ run_of is_digit_or_dot version
    /\ tag = "v" ++ major ++ "." ++ minor ++ "." ++ patch
    /\ run_of is_digit major /\ run_of is_digit minor
    /\ run_of is_digit patch
    /\ version = lead ++ major ++ "." ++ minor ++ "." ++ patch.
Proof.
  intros Hd. destruct (derive_target_inv _ _ _ Hd) as (v & Hv & -> & Hr).
  destruct (tag_pattern_sound _ _ Hv)
    as (pre & major & minor & patch & Hfile & -> & Hmaj & Hmin & Hpat).
  destruct (repo_pattern_sound _ _ Hr) as (dir & version & Hfile' & Hrepo & Hver).
  exists dir, version.
  set (mmp := major ++ "." ++ minor ++ "." ++ patch) in *.
  assert (Hmmp : every is_digit_or_dot mmp = true).
  { unfold mmp. rewrite !every_append. cbn.
    now rewrite !digits_are_version_chars by (apply Hmaj || apply Hmin || apply Hpat). }
  assert (Heq : (dir ++ "/" ++ repo ++ "-") ++ "v" ++ version = pre ++ mmp).
  { apply (append_same_tail _ _ ".tgz").
    rewrite !append_assoc. rewrite <- Hfile. rewrite Hfile'.
    repeat (rewrite ?append_assoc; cbn [append]). reflexivity. }
  destruct (append_eq_append _ _ _ _ Heq) as [(e & He & Hm) | (e & He & Hm)].
  - exfalso. rewrite Hm, every_append, every_append in Hmmp.
    cbn in Hmmp. rewrite andb_false_r in Hmmp. discriminate.
  - destruct e as [|c e].
    + exfalso. cbn in Hm. rewrite <- Hm in Hmmp. cbn in Hmmp. discriminate.
    + cbn in Hm. inversion Hm; subst c.
      exists e, major, minor, patch. rewrite <- H1.
      split; [exact Hfile'|]. split; [exact Hrepo|]. split; [exact Hver|].
      split; [reflexivity|]. split; [exact Hmaj|]. split; [exact Hmin|].
      split; [exact Hpat | exact H1].
Qed.

Lemma X8_derived_target_shape_witness :
  exists dir version lead major minor patch,
    "./builds/myrepo-v1.2.3.4.tgz"
    = dir ++ "/" ++ "myrepo" ++ "-v" ++ version ++ ".tgz"
    /\ run_of is_word_or_dash "myrepo"
    /\ run_of is_digit_or_dot version
    /\ "v2.3.4" = "v" ++ major ++ "." ++ minor ++ "." ++ patch
    /\ run_of is_digit major /\ run_of is_digit minor
    /\ run_of is_digit patch
    /\ version = lead ++ major ++ "." ++ minor ++ "." ++ patch.
Proof.
  apply (X8_derived_target_shape "./builds/myrepo-v1.2.3.4.tgz").
  reflexivity.
Defined.

End PatternFacts.

(* ===================================================================== *)
(** ** More on the project spec generator *)
(* ===================================================================== *)

Section AnswerFacts.
Import Js Prompt Generator GeneratorExamples GeneratorShapes.

(** What an accepted answer of [read_loop] is. *)
Lemma read_loop_Ok (name : string) (sch : schema) (h : history)
  (lines : list string) :
  forall acc s v,
    read_loop name sch h lines acc = (s, Ok v) ->
    exists l,
      In l lines
      /\ validate sch (if truthy (effective sch l)
                       then Some (effective sch l) else None) = true
      /\ v = snd (apply_before sch (effective sch l))
      /\ hist s = remember name v h.
Proof.
  induction lines as [|l rest IH]; intros acc s v; [discriminate|].
  rewrite read_loop_cons. cbn zeta.
  destruct (validate sch _) eqn:Hv.
  - intros H; inversion H; subst. exists l. cbn. auto.
  - intros H. destruct (IH _ _ _ H) as (l' & Hin & Hrest).
    exists l'. split; [now right | exact Hrest].
Qed.

(** What an answer of [getInput] is: the default of a property that is
    not asked, or an accepted line. *)
Lemma getInput_Ok (name : string) (sch : schema) (s s' : session)
  (v : string) :
  getInput name sch s = (s', Ok v) ->
  (exists f, ask sch = Some f /\ f (hist s) = Some false
             /\ s' = s /\ v = or_else (default_or_empty sch) EmptyString)
  \/ ((ask sch = None \/ exists f, ask sch = Some f /\ f (hist s) = Some true)
      /\ exists l,
          validate sch (if truthy (effective sch l)
                        then Some (effective sch l) else None) = true
          /\ v = snd (apply_before sch (effective sch l))
          /\ hist s' = remember name v (hist s)).
Proof.
  unfold getInput.
  destruct (ask sch) as [f|] eqn:Ha.
  - destruct (f (hist s)) as [[|]|] eqn:Hf; [| |discriminate].
    + intros H. right. split; [right; eauto|].
      destruct (read_loop_Ok _ _ _ _ _ _ _ H) as (l & _ & Hl). eauto.
    + intros H; inversion H; subst. left. eauto.
  - intros H. right. split; [now left|].
    destruct (read_loop_Ok _ _ _ _ _ _ _ H) as (l & _ & Hl). eauto.
Qed.

Lemma replace_runs_truthy (s : string) :
  truthy s = true -> truthy (replace_runs false s) = true.
Proof.
  destruct s as [|c s]; [discriminate|]. cbn.
  now destruct (is_space c).
Qed.

Lemma no_space_no_blank (s : string) :
  any_char is_space s = false -> includes " " s = false.
Proof.
  induction s as [|c s IH]; [reflexivity|].
  cbn [any_char includes]. intros H.
  apply orb_false_iff in H as [Hc Hs]. rewrite (IH Hs), orb_false_r.
  cbn [prefix]. destruct (Ascii.ascii_dec " " c) as [<- | Hne];
    [discriminate | reflexivity].
Qed.

(** The name a form hands over: a line that was not yet a name, run
    through the hook. *)
Lemma name_Ok (V : Type) (nonce : string) (arr : obj V) (thing : string)
  (s s' : session) (v : string) :
  getInput "name" (snd (name nonce arr thing)) s = (s', Ok v) ->
  exists line,
    truthy line = true /\ has_key line arr = false
    /\ v = snd (name_before line)
    /\ hist s' = remember "name" v (hist s).
Proof.
  intros H. apply getInput_Ok in H as [(f & Ha & _) | (_ & l & Hv & -> & Hh)];
    [discriminate|].
  set (line := effective (snd (name nonce arr thing)) l) in *.
  exists line. destruct (truthy line) eqn:Ht; [|discriminate].
  repeat split; try assumption.
  change (negb (has_key line arr) = true) in Hv.
  now destruct (has_key line arr).
Qed.

Lemma name_before_stored (line : string) :
  truthy line = true -> stored_name (snd (name_before line)).
Proof.
  intros Ht. unfold name_before, stored_name.
  destruct (includes " " line) eqn:Hs; cbn [snd].
  - split; [now apply replace_runs_truthy|].
    apply no_space_no_blank, replace_runs_no_space.
  - now split.
Qed.

(** A required property without a hook answers a non-empty line as it
    was read. *)
Lemma plain_Ok (k descr : string) (dflt : option string)
  (s s' : session) (v : string) :
  getInput k (plain descr dflt true) s = (s', Ok v) ->
  truthy v = true /\ hist s' = remember k v (hist s).
Proof.
  intros H. apply getInput_Ok in H as [(f & Ha & _) | (_ & l & Hv & -> & Hh)];
    [discriminate|].
  cbn [apply_before before plain snd] in *.
  destruct (truthy (effective (plain descr dflt true) l)) eqn:Ht;
    [now split | discriminate].
Qed.

Lemma type_Ok (s s' : session) (v : string) :
  getInput "type" type_field s = (s', Ok v) ->
  In v trigger_types /\ hist s' = remember "type" v (hist s).
Proof.
  intros H. apply getInput_Ok in H as [(f & Ha & _) | (_ & l & Hv & -> & Hh)];
    [discriminate|].
  cbn [apply_before before type_field snd] in *.
  destruct (truthy (effective type_field l)); [|discriminate].
  split; [|exact Hh]. now apply existsb_eqb_In.
Qed.

(** A property that depends on the type: asked exactly when the newest
    remembered type is [t], and then any line is taken; otherwise its
    default, or the empty string. *)
Lemma asked_when_Ok (k descr t : string) (dflt : option string)
  (s s' : session) (v ty : string) :
  history_value "type" (hist s) = Some ty ->
  getInput k (asked_when descr dflt t) s = (s', Ok v) ->
  (String.eqb ty t = false /\ s' = s
   /\ v = match dflt with Some d => d | None => EmptyString end)
  \/ (String.eqb ty t = true
      /\ hist s' = remember k v (hist s)
      /\ exists x,
          v = or_else x (match dflt with Some d => d | None => EmptyString end)).
Proof.
  intros Hty H.
  apply getInput_Ok in H
    as [(f & Ha & Hf & -> & ->) | ([Ha | (f & Ha & Hf)] & l & _ & -> & Hh)].
  - left. cbn in Ha. inversion Ha; subst f. unfold type_is in Hf.
    rewrite Hty in Hf. inversion Hf as [Hb]. repeat split.
    cbn. now destruct dflt as [[|c d]|].
  - discriminate.
  - right. cbn in Ha. inversion Ha; subst f. unfold type_is in Hf.
    rewrite Hty in Hf. inversion Hf as [Hb]. repeat split; [exact Hh|].
    exists l. cbn. unfold effective, or_else. cbn. now destruct (truthy l).
Qed.

End AnswerFacts.

Section RecordFacts.
Import Js Prompt Generator GeneratorExamples GeneratorShapes.

Ltac field_step H E sn vn :=
  rewrite get_from_cons in H; cbn [fst snd] in H;
  match type of H with
  | context [getInput ?k ?sch ?s] =>
      destruct (getInput k sch s) as [sn [vn| | |]] eqn:E;
      try discriminate H
  end.

(** [o[k] = v] keeps what holds of every entry, when it holds of the new
    one. *)
Lemma obj_set_Forall {V : Type} (P : string * V -> Prop)
  (k : string) (v : V) (o : obj V) :
  Forall P o -> P (k, v) -> Forall P (obj_set k v o).
Proof.
  intros Ho Hn. unfold obj_set.
  destruct (String.eqb k "__proto__"); [assumption|].
  induction o as [|[k' v'] t IH]; cbn.
  - now repeat constructor.
  - inversion Ho; subst.
    destruct (String.eqb_spec k k') as [<- | _]; constructor; auto.
Qed.

(** The answers of a completed job form. *)
Lemma jobForm_answers (nonce : string) (o : obj (obj string))
  (s s' : session) (answers : obj string) :
  get (jobForm nonce o) s = (s', Ok answers) ->
  exists line another_answer,
    truthy line = true /\ has_key line o = false
    /\ field "name" answers = snd (name_before line)
    /\ field "another" answers = another_answer
    /\ job_record (rest_of answers).
Proof.
  unfold get, jobForm. intros H.
  field_step H E1 s1 v1. apply name_Ok in E1 as (line & Ht & Hk & -> & _).
  field_step H E2 s2 v2. apply plain_Ok in E2 as [He _].
  field_step H E3 s3 v3. apply plain_Ok in E3 as [Ha _].
  field_step H E4 s4 v4. apply plain_Ok in E4 as [Htr _].
  field_step H E5 s5 v5. apply plain_Ok in E5 as [Hc _].
  field_step H E6 s6 v6. cbn [get_from] in H. inversion H; subst; clear H.
  exists line. eexists. repeat split; try assumption.
  unfold job_record. do 4 eexists.
  split; [reflexivity | now repeat split].
Qed.

(** The answers of a completed credential form. *)
Lemma credentialForm_answers (nonce : string) (o : obj string)
  (s s' : session) (answers : obj string) :
  get (credentialForm nonce o) s = (s', Ok answers) ->
  exists line,
    truthy line = true /\ has_key line o = false
    /\ field "name" answers = snd (name_before line)
    /\ truthy (field "body" answers) = true.
Proof.
  unfold get, credentialForm. intros H.
  field_step H E1 s7 v7. apply name_Ok in E1 as (line & Ht & Hk & -> & _).
  field_step H E2 s8 v8. apply plain_Ok in E2 as [Hb _].
  field_step H E3 s9 v9. cbn [get_from] in H. inversion H; subst; clear H.
  exists line. now repeat split.
Qed.

Lemma type_is_newest (t : string) (h : history) :
  history_value "type" (remember "type" t h) = Some t.
Proof. reflexivity. Qed.

Lemma type_stays_near (k v t : string) (h : history) :
  String.eqb k "type" = false ->
  history_value "type" (remember k v (remember "type" t h)) = Some t.
Proof. intros Hk. cbn. now rewrite Hk. Qed.

(** After a property that depends on the type, the newest remembered
    type is still the one of the form. *)
Ltac type_still_there Hh :=
  first
    [ subst; assumption
    | rewrite Hh; match goal with
                  | Ht : hist _ = remember "type" _ _ |- _ => rewrite Ht
                  end; reflexivity ].

Ltac skipped_step H E Hty sn vn :=
  let Hb := fresh "Hb" in
  field_step H E sn vn;
  apply (asked_when_Ok _ _ _ _ _ _ _ _ Hty) in E
    as [(_ & -> & ->) | (Hb & _)];
  [|discriminate Hb].

Ltac asked_step H E Hty sn vn Hh x :=
  let Hb := fresh "Hb" in
  field_step H E sn vn;
  apply (asked_when_Ok _ _ _ _ _ _ _ _ Hty) in E
    as [(Hb & _) | (_ & Hh & x & ->)];
  [discriminate Hb|].

(** The answers of a completed trigger form: the record that is stored
    is the one of its type. *)
Lemma triggerForm_answers (nonce : string) (o : obj (obj string))
  (s s' : session) (answers : obj string) :
  get (triggerForm nonce o) s = (s', Ok answers) ->
  exists line,
    truthy line = true /\ has_key line o = false
    /\ field "name" answers = snd (name_before line)
    /\ stored_trigger (removeFalsy (rest_of answers)).
Proof.
  unfold get, triggerForm. intros H.
  field_step H E1 s1 v1. apply name_Ok in E1 as (line & Ht & Hk & -> & _).
  field_step H E2 s2 ty. apply type_Ok in E2 as [Hin Hty].
  assert (Hnow : history_value "type" (hist s2) = Some ty)
    by (rewrite Hty; apply type_is_newest).
  exists line. split; [exact Ht|]. split; [exact Hk|].
  cbn in Hin. destruct Hin as [<- | [<- | [<- | [<- | []]]]].
  - (* cron *)
    asked_step H E3 Hnow s3 v3 Hh x.
    assert (Hnow' : history_value "type" (hist s3) = Some "cron")
      by (rewrite Hh, Hty; reflexivity).
    skipped_step H E4 Hnow' s4 v4.
    skipped_step H E5 Hnow' s5 v5.
    skipped_step H E6 Hnow' s6 v6.
    field_step H E7 s7 v7. cbn [get_from] in H. inversion H; subst; clear H.
    split; [reflexivity|]. exists "cron", x. split; [cbn; tauto|].
    now destruct x.
  - (* message *)
    skipped_step H E3 Hnow s3 v3.
    asked_step H E4 Hnow s4 v4 Hh x.
    assert (Hnow' : history_value "type" (hist s4) = Some "message")
      by (rewrite Hh, Hty; reflexivity).
    skipped_step H E5 Hnow' s5 v5.
    skipped_step H E6 Hnow' s6 v6.
    field_step H E7 s7 v7. cbn [get_from] in H. inversion H; subst; clear H.
    split; [reflexivity|]. exists "message", x. split; [cbn; tauto|].
    now destruct x.
  - (* success *)
    skipped_step H E3 Hnow s3 v3.
    skipped_step H E4 Hnow s4 v4.
    asked_step H E5 Hnow s5 v5 Hh x.
    assert (Hnow' : history_value "type" (hist s5) = Some "success")
      by (rewrite Hh, Hty; reflexivity).
    skipped_step H E6 Hnow' s6 v6.
    field_step H E7 s7 v7. cbn [get_from] in H. inversion H; subst; clear H.
    split; [reflexivity|]. exists "success", x. split; [cbn; tauto|].
    now destruct x.
  - (* failure *)
    skipped_step H E3 Hnow s3 v3.
    skipped_step H E4 Hnow s4 v4.
    skipped_step H E5 Hnow s5 v5.
    asked_step H E6 Hnow s6 v6 Hh x.
    field_step H E7 s7 v7. cbn [get_from] in H. inversion H; subst; clear H.
    split; [reflexivity|]. exists "failure", x. split; [cbn; tauto|].
    now destruct x.
Qed.

End RecordFacts.

Section StoreFacts.
Import Js Prompt Generator GeneratorExamples GeneratorShapes.

Ltac loop_keeps answers_lemma step :=
  let fuel := fresh "fuel" in
  let IH := fresh "IH" in
  intros fuel; induction fuel as [|fuel IH]; intros o s Ho;
  [ exact Ho
  | rewrite step;
    let E := fresh "E" in
    destruct (get _ s) as [s' [answers| | |]] eqn:E; cbn zeta;
    try exact Ho;
    apply answers_lemma in E;
    destruct (String.eqb (field "another" answers) "y");
    [ apply IH | cbn [fst] ]; apply obj_set_Forall; try exact Ho ].

Lemma addJob_keeps (nonce : string) :
  forall fuel o s,
    Forall (fun kv => stored_name (fst kv) /\ job_record (snd kv)) o ->
    Forall (fun kv => stored_name (fst kv) /\ job_record (snd kv))
      (fst (fst (addJob nonce fuel o s))).
Proof.
  loop_keeps jobForm_answers addJob_step;
    destruct E as (line & a & Ht & _ & -> & _ & Hr);
    (split; [now apply name_before_stored | exact Hr]).
Qed.

Lemma addTrigger_keeps (nonce : string) :
  forall fuel o s,
    Forall (fun kv => stored_name (fst kv) /\ stored_trigger (snd kv)) o ->
    Forall (fun kv => stored_name (fst kv) /\ stored_trigger (snd kv))
      (fst (fst (addTrigger nonce fuel o s))).
Proof.
  loop_keeps triggerForm_answers addTrigger_step;
    destruct E as (line & Ht & _ & -> & Hr);
    (split; [now apply name_before_stored | exact Hr]).
Qed.

Lemma addCredential_keeps (nonce : string) :
  forall fuel o s,
    Forall (fun kv => stored_name (fst kv) /\ truthy (snd kv) = true) o ->
    Forall (fun kv => stored_name (fst kv) /\ truthy (snd kv) = true)
      (fst (fst (addCredential nonce fuel o s))).
Proof.
  loop_keeps credentialForm_answers addCredential_step;
    destruct E as (line & Ht & _ & -> & Hb);
    (split; [now apply name_before_stored | exact Hb]).
Qed.

(** X9: whatever is typed, every job that [addJob] stores has a name
    that is not empty and holds no space, and a record of exactly the
    four properties expression, adaptor, trigger and credential, in that
    order, none of them empty. *)
Theorem X9_stored_jobs (nonce : string) (fuel : nat) (s : session) :
  Forall (fun kv => stored_name (fst kv) /\ job_record (snd kv))
    (fst (fst (addJob nonce fuel [] s))).
Proof. apply addJob_keeps. constructor. Qed.

(** X10: whatever is typed, every trigger that [addTrigger] stores has a
    name that is not empty and holds no space, and the record of its
    type: the type, one of cron, message, success and failure; a cron
    expression and a criteria, each the typed one for its own type and the
    default for every other type; and success or failure only for its own
    type, when a job was typed. *)
Theorem X10_stored_triggers (nonce : string) (fuel : nat) (s : session) :
  Forall (fun kv => stored_name (fst kv) /\ stored_trigger (snd kv))
    (fst (fst (addTrigger nonce fuel [] s))).
Proof. apply addTrigger_keeps. constructor. Qed.

(** X11: whatever is typed, every credential that [addCredential] stores
    has a name that is not empty and holds no space, and a body that is
    not empty. *)
Theorem X11_stored_credentials (nonce : string) (fuel : nat) (s : session) :
  Forall (fun kv => stored_name (fst kv) /\ truthy (snd kv) = true)
    (fst (fst (addCredential nonce fuel [] s))).
Proof. apply addCredential_keeps. constructor. Qed.

End StoreFacts.

Section HookFacts.
Import Js Prompt Generator GeneratorExamples GeneratorShapes.

Lemma removeFalsy_fold (o : obj string) :
  forall (l acc : obj string),
    (forall k v, In (k, v) l -> obj_get k o = Some v) ->
    NoDup (obj_keys l) ->
    ~ In "__proto__" (obj_keys l) ->
    (forall k, In k (obj_keys l) -> has_key k acc = false) ->
    fold_left
      (fun newObj prop =>
         match obj_get prop o with
         | Some v => if truthy v then obj_set prop v newObj else newObj
         | None => newObj
         end)
      (obj_keys l) acc
    = (acc ++ filter (fun kv => truthy (snd kv)) l)%list.
Proof.
  induction l as [|[k v] t IH]; intros acc Hget Hnd Hno Hfresh.
  - cbn. now rewrite app_nil_r.
  - cbn [obj_keys map fst fold_left filter snd] in *.
    rewrite (Hget k v) by now left.
    inversion Hnd as [|? ? Hnotin Hnd']; subst.
    assert (Ht : forall acc',
               (forall k', In k' (map fst t) -> has_key k' acc' = false) ->
               fold_left
                 (fun newObj prop =>
                    match obj_get prop o with
                    | Some v => if truthy v then obj_set prop v newObj
                                else newObj
                    | None => newObj
                    end) (map fst t) acc'
               = (acc' ++ filter (fun kv => truthy (snd kv)) t)%list).
    { intros acc' Hf.
      apply IH;
        [ intros k' v' Hin; apply Hget; now right
        | exact Hnd'
        | intros Hin; apply Hno; now right
        | exact Hf ]. }
    destruct (truthy v).
    + unfold obj_set.
      destruct (String.eqb_spec k "__proto__") as [-> | Hne];
        [exfalso; apply Hno; now left|].
      rewrite obj_put_fresh by (apply Hfresh; now left).
      rewrite Ht; [now rewrite <- app_assoc|].
      intros k' Hin. rewrite has_key_app, Hfresh by now right.
      unfold has_key. cbn.
      destruct (String.eqb_spec k' k) as [-> | _];
        [contradiction | reflexivity].
    + apply Ht. intros k' Hin. apply Hfresh. now right.
Qed.

Lemma filter_keys_sub {V : Type} (f : string * V -> bool) (o : obj V)
  (k : string) :
  In k (obj_keys (filter f o)) -> In k (obj_keys o).
Proof.
  unfold obj_keys. rewrite !in_map_iff.
  intros ((k', v) & <- & Hin). apply filter_In in Hin as [Hin _].
  now exists (k', v).
Qed.

Lemma filter_keys_NoDup {V : Type} (f : string * V -> bool) (o : obj V) :
  NoDup (obj_keys o) -> NoDup (obj_keys (filter f o)).
Proof.
  induction o as [|[k v] t IH]; cbn; [constructor|].
  intros Hnd. inversion Hnd as [|? ? Hnotin Hnd']; subst.
  destruct (f (k, v)); cbn; [|now apply IH].
  constructor; [|now apply IH].
  intros Hin. apply Hnotin. now apply (filter_keys_sub f t).
Qed.

(** X12: on an object, [removeFalsy] keeps exactly the properties whose
    value is not empty, in their order and with their values; applying it
    again changes nothing. *)
Theorem X12_removeFalsy_filters (o : obj string) :
  NoDup (obj_keys o) ->
  ~ In "__proto__" (obj_keys o) ->
  removeFalsy o = filter (fun kv => truthy (snd kv)) o
  /\ removeFalsy (removeFalsy o) = removeFalsy o.
Proof.
  intros Hnd Hno.
  assert (Hfilter : forall p : obj string,
             NoDup (obj_keys p) -> ~ In "__proto__" (obj_keys p) ->
             removeFalsy p = filter (fun kv => truthy (snd kv)) p).
  { intros p Hp Hq. unfold removeFalsy.
    rewrite (removeFalsy_fold p p []); auto.
    intros k v Hin. now apply obj_get_first. }
  split; [now apply Hfilter|].
  rewrite (Hfilter o Hnd Hno). rewrite Hfilter.
  - induction o as [|[k v] t IH]; [reflexivity|].
    inversion Hnd; subst. cbn.
    destruct (truthy v) eqn:Hv; cbn; rewrite ?Hv, IH; auto;
      intros Hin; apply Hno; now right.
  - now apply filter_keys_NoDup.
  - intros Hin. apply Hno. eapply filter_keys_sub, Hin.
Qed.

Lemma X12_removeFalsy_filters_witness :
  removeFalsy [("type", "success"); ("cron", "* * * * *");
               ("success", EmptyString); ("failure", EmptyString)]
  = filter (fun kv => truthy (snd kv))
      [("type", "success"); ("cron", "* * * * *");
       ("success", EmptyString); ("failure", EmptyString)]
  /\ removeFalsy
       (removeFalsy [("type", "success"); ("cron", "* * * * *");
                     ("success", EmptyString); ("failure", EmptyString)])
     = removeFalsy [("type", "success"); ("cron", "* * * * *");
                    ("success", EmptyString); ("failure", EmptyString)].
Proof.
  apply X12_removeFalsy_filters.
  - repeat constructor; cbn; intuition discriminate.
  - cbn. intuition discriminate.
Defined.

(** X13: the hook of a name settles at once: the name it returns is
    returned unchanged, and without a notice, when it is proposed
    again. *)
Theorem X13_name_before_settles (value : string) :
  name_before (snd (name_before value)) = ([], snd (name_before value)).
Proof.
  assert (H : includes " " (snd (name_before value)) = false).
  { unfold name_before.
    destruct (includes " " value) eqn:Hs; cbn [snd];
      [apply no_space_no_blank, replace_runs_no_space | exact Hs]. }
  unfold name_before at 1. now rewrite H.
Qed.

End HookFacts.

Section StepFacts.
Import Js Prompt Generator GeneratorExamples GeneratorShapes.

Ltac next_field := rewrite get_from_cons; cbn [fst snd].
Ltac answered :=
  next_field;
  rewrite getInput_accept
    by (first [reflexivity | exact I | apply validate_lenient; reflexivity]).

Lemma plain_accept (k descr : string) (dflt : option string) (l : string)
  (rest : list string) (h : history) (acc : list event) :
  truthy (effective (plain descr dflt true) l) = true ->
  getInput k (plain descr dflt true)
    {| stdin := l :: rest; hist := h; shown := acc |}
  = ({| stdin := rest;
        hist := remember k (effective (plain descr dflt true) l) h;
        shown := (acc ++ [Asked (brightCyan descr)])%list |},
     Ok (effective (plain descr dflt true) l)).
Proof.
  intros Ht. rewrite getInput_accept; [reflexivity | exact I |].
  now rewrite Ht.
Qed.

Lemma another_accept (thing a : string) (rest : list string) (h : history)
  (acc : list event) :
  getInput "another" (snd (another thing))
    {| stdin := a :: rest; hist := h; shown := acc |}
  = ({| stdin := rest; hist := remember "another" a h;
        shown := (acc ++ [Asked (description (snd (another thing)))])%list |},
     Ok a).
Proof.
  rewrite getInput_accept;
    [| exact I | apply validate_lenient; reflexivity].
  now destruct a.
Qed.

Lemma name_kept (n : string) :
  includes " " n = false -> name_before n = ([], n).
Proof. intros H. unfold name_before. now rewrite H. Qed.

(** [o[k] = v] for a name that [o] does not hold yet, read back as a map:
    [k] holds [v], every other name holds what it held, and the object
    has one property more. *)
Lemma obj_set_fresh_lookup {V : Type} (k : string) (v : V) (o : obj V) :
  k <> "__proto__" -> has_key k o = false ->
  obj_get k (obj_set k v o) = Some v
  /\ (forall k', k' <> k -> obj_get k' (obj_set k v o) = obj_get k' o)
  /\ List.length (obj_keys (obj_set k v o)) = S (List.length (obj_keys o)).
Proof.
  intros Hp Hk. unfold obj_set. apply String.eqb_neq in Hp. rewrite Hp.
  rewrite (obj_put_fresh k v o Hk). clear Hp.
  unfold has_key, obj_keys in *. repeat split.
  - induction o as [|[k1 v1] t IH]; cbn in *.
    + now rewrite String.eqb_refl.
    + destruct (String.eqb k k1); [discriminate | now apply IH].
  - intros k' Hne. apply String.eqb_neq in Hne.
    induction o as [|[k1 v1] t IH]; cbn in *.
    + now rewrite Hne.
    + destruct (String.eqb k' k1); [reflexivity|].
      apply IH. now destruct (String.eqb k k1).
  - rewrite map_app, length_app. cbn. lia.
Qed.

(** X14: one completed credential form, for a proposed name that is not
    empty, holds no space, is not [__proto__] and is not yet stored, and a
    body that is not empty: the accumulator the loop goes on with holds
    the body under the name, holds under every other name what it held
    before, and has one property more; the loop goes on exactly when the
    last answer is [y].  Nothing is said of where the new name stands
    among the keys. *)
Theorem X14_credential_step (nonce : string) (o : obj string)
  (n b a : string) (rest : list string) (h : history) (acc : list event)
  (fuel : nat) :
  truthy n = true -> includes " " n = false -> n <> "__proto__" ->
  has_key n o = false -> truthy b = true ->
  let s' :=
    {| stdin := rest;
       hist := remember "another" a (remember "body" b (remember "name" n h));
       shown :=
         (((acc ++ [Asked (brightCyan "Credential name")])
           ++ [Asked (brightCyan "Path to credential.json")])
          ++ [Asked (description (snd (another "credential")))])%list |} in
  exists o' : obj string,
    addCredential nonce (S fuel) o
      {| stdin := n :: b :: a :: rest; hist := h; shown := acc |}
    = (if String.eqb a "y"
       then addCredential nonce fuel o' s'
       else (o', show [Log "OK. Credentials written."] s', Ok tt))
    /\ obj_get n o' = Some b
    /\ (forall k, k <> n -> obj_get k o' = obj_get k o)
    /\ List.length (obj_keys o') = S (List.length (obj_keys o)).
Proof.
  intros Hn Hs Hp Hk Hb s'. exists (obj_set n b o). split.
  - rewrite addCredential_step.
    unfold get, credentialForm.
    next_field. rewrite name_accept by assumption. rewrite (name_kept n Hs).
    cbn [fst snd].
    next_field.
    rewrite plain_accept by (destruct b; [discriminate | reflexivity]).
    replace (effective (plain "Path to credential.json" None true) b) with b
      by (now destruct b).
    next_field. rewrite another_accept. cbn [get_from].
    cbn zeta.
    replace (field "another" _) with a by reflexivity.
    replace (field "name" _) with n by reflexivity.
    replace (field "body" _) with b by reflexivity.
    reflexivity.
  - now apply obj_set_fresh_lookup.
Qed.

Lemma X14_credential_step_witness :
  exists o' : obj string,
    addCredential "shy" 3 [("dhis2", "./dhis2.json")]
      (typing ["kobo"; "./kobo.json"; "n"])
    = (o',
       show [Log "OK. Credentials written."]
         {| stdin := [];
            hist := [("another", "n"); ("body", "./kobo.json");
                     ("name", "kobo")];
            shown :=
              [Asked (brightCyan "Credential name");
               Asked (brightCyan "Path to credential.json");
               Asked (description (snd (another "credential")))] |},
       Ok tt)
    /\ obj_get "kobo" o' = Some "./kobo.json"
    /\ (forall k, k <> "kobo" ->
        obj_get k o' = obj_get k [("dhis2", "./dhis2.json")])
    /\ List.length (obj_keys o') = 2.
Proof.
  apply (X14_credential_step "shy" [("dhis2", "./dhis2.json")]
           "kobo" "./kobo.json" "n" [] [] [] 2);
    try reflexivity.
  discriminate.
Defined.

(** X15: one completed job form, for a proposed name that is not empty,
    holds no space, is not [__proto__] and is not yet stored, with an
    expression, a trigger and a credential that are not empty: the
    accumulator the loop goes on with holds under the name the record of
    the four properties, the adaptor being the line typed or, for an
    empty line, the default [@openfn/language-http]; it holds under every
    other name what it held before, and has one property more; the loop
    goes on exactly when the last answer is [y].  Nothing is said of
    where the new name stands among the keys. *)
Theorem X15_job_step (nonce : string) (o : obj (obj string))
  (n e ad t c a : string) (rest : list string) (h : history)
  (acc : list event) (fuel : nat) :
  truthy n = true -> includes " " n = false -> n <> "__proto__" ->
  has_key n o = false ->
  truthy e = true -> truthy t = true -> truthy c = true ->
  let adaptor := or_else ad "@openfn/language-http" in
  let record :=
    [("expression", e); ("adaptor", adaptor); ("trigger", t);
     ("credential", c)] in
  let s' :=
    {| stdin := rest;
       hist :=
         remember "another" a
           (remember "credential" c
              (remember "trigger" t
                 (remember "adaptor" adaptor
                    (remember "expression" e (remember "name" n h)))));
       shown :=
         ((((((acc ++ [Asked (brightCyan "Job name")])
              ++ [Asked (brightCyan
                    "Path to the job (./my-job.js) or the expression itself")])
             ++ [Asked (brightCyan "Adaptor")])
            ++ [Asked (brightCyan "Trigger")])
           ++ [Asked (brightCyan "Credential")])
          ++ [Asked (description (snd (another "job")))])%list |} in
  exists o' : obj (obj string),
    addJob nonce (S fuel) o
      {| stdin := n :: e :: ad :: t :: c :: a :: rest; hist := h;
         shown := acc |}
    = (if String.eqb a "y"
       then addJob nonce fuel o' s'
       else (o', show [Log "OK. Jobs written."] s', Ok tt))
    /\ obj_get n o' = Some record
    /\ (forall k, k <> n -> obj_get k o' = obj_get k o)
    /\ List.length (obj_keys o') = S (List.length (obj_keys o)).
Proof.
  intros Hn Hs Hp Hk He Ht Hc adaptor record s'.
  exists (@obj_set (obj string) n record o). split.
  - rewrite addJob_step.
    unfold get, jobForm.
    next_field. rewrite name_accept by assumption. rewrite (name_kept n Hs).
    cbn [fst snd].
    next_field.
    rewrite plain_accept by (destruct e; [discriminate | reflexivity]).
    replace (effective (plain _ None true) e) with e by (now destruct e).
    next_field. rewrite plain_accept by (now destruct ad).
    replace (effective (plain "Adaptor" (Some "@openfn/language-http") true) ad)
      with adaptor by (now destruct ad).
    next_field.
    rewrite plain_accept by (destruct t; [discriminate | reflexivity]).
    replace (effective (plain "Trigger" None true) t) with t
      by (now destruct t).
    next_field.
    rewrite plain_accept by (destruct c; [discriminate | reflexivity]).
    replace (effective (plain "Credential" None true) c) with c
      by (now destruct c).
    next_field. rewrite another_accept. cbn [get_from].
    cbn zeta.
    replace (field "another" _) with a by reflexivity.
    replace (field "name" _) with n by reflexivity.
    replace (rest_of _) with record by reflexivity.
    reflexivity.
  - now apply obj_set_fresh_lookup.
Qed.

Lemma X15_job_step_witness :
  exists o' : obj (obj string),
    fst (fst (addJob "shy" 2 []
                (typing ["sync"; "./sync.js"; EmptyString; "nightly";
                         "dhis2"; "n"])))
    = o'
    /\ obj_get "sync" o'
       = Some [("expression", "./sync.js");
               ("adaptor", "@openfn/language-http");
               ("trigger", "nightly"); ("credential", "dhis2")]
    /\ List.length (obj_keys o') = 1.
Proof.
  destruct (X15_job_step "shy" [] "sync" "./sync.js" EmptyString "nightly"
              "dhis2" "n" [] [] [] 1)
    as (o' & Hrun & Hget & _ & Hlen);
    try reflexivity; [discriminate|].
  exists o'. unfold typing. rewrite Hrun. cbn [String.eqb fst].
  repeat split; assumption.
Defined.

(** X16: the question about the kind of document accepts exactly [uri]
    and [monolith], an empty line standing for [uri]; every other line
    is answered with [Invalid input for] and the question, and asked
    again. *)
Theorem X16_setType_values
  (l : string) (rest : list string) (h : history) (acc : list event) :
  let line := effective mode_field l in
  (In line ["uri"; "monolith"] ->
   setType {| stdin := l :: rest; hist := h; shown := acc |}
   = ({| stdin := rest; hist := remember "type" line h;
         shown := (acc ++ [Asked (description mode_field)])%list |},
      Ok line))
  /\ (~ In line ["uri"; "monolith"] ->
      setType {| stdin := l :: rest; hist := h; shown := acc |}
      = setType
          {| stdin := rest; hist := h;
             shown :=
               ((acc ++ [Asked (description mode_field)])
                ++ [LogError ("Invalid input for " ++ description mode_field)]
               )%list |}).
Proof.
  intros line.
  assert (Ht : truthy line = true)
    by (unfold line, effective; now destruct l).
  assert (Hv : validate mode_field (if truthy line then Some line else None)
               = existsb (String.eqb line) ["uri"; "monolith"])
    by (now rewrite Ht).
  unfold setType, get. rewrite !get_from_cons. cbn [fst snd].
  split; intros Hin.
  - rewrite getInput_accept; [| exact I |].
    + cbn [get_from apply_before before mode_field snd fst].
      fold line. unfold field, obj_set. cbn.
      reflexivity.
    + fold line. rewrite Hv. now apply existsb_eqb_In.
  - rewrite getInput_reject; [reflexivity | reflexivity |].
    fold line. rewrite Hv.
    destruct (existsb (String.eqb line) ["uri"; "monolith"]) eqn:E;
      [|reflexivity].
    apply existsb_eqb_In in E. contradiction.
Qed.

Lemma X16_setType_values_witness :
  setType (typing ["yaml"; "monolith"])
  = setType
      {| stdin := ["monolith"]; hist := [];
         shown := [Asked (description mode_field);
                   LogError ("Invalid input for " ++ description mode_field)]
      |}
  /\ setType (typing [EmptyString; "x"])
     = ({| stdin := ["x"]; hist := [("type", "uri")];
           shown := [Asked (description mode_field)] |},
        Ok "uri").
Proof.
  split.
  - apply (proj2 (X16_setType_values "yaml" ["monolith"] [] [])).
    cbn. intuition discriminate.
  - apply (proj1 (X16_setType_values EmptyString ["x"] [] [])).
    cbn. tauto.
Defined.

End StepFacts.

Section RunFacts.
Import Js Prompt Generator GeneratorExamples GeneratorShapes RunShapes.

Lemma no_ask_settled (k : string) (sch : schema) (s : session) :
  ask sch = None -> settled (snd (getInput k sch s)).
Proof.
  intros Ha. unfold getInput. rewrite Ha.
  pose proof (read_loop_ends k sch (hist s) (stdin s) (shown s)) as H.
  now destruct (snd (read_loop k sch (hist s) (stdin s) (shown s))).
Qed.

Lemma asked_when_settled (k descr t ty : string) (dflt : option string)
  (s : session) :
  history_value "type" (hist s) = Some ty ->
  settled (snd (getInput k (asked_when descr dflt t) s)).
Proof.
  intros Hty. unfold getInput. cbn [ask asked_when]. unfold type_is.
  rewrite Hty. destruct (String.eqb ty t); [|exact I].
  pose proof (read_loop_ends k (asked_when descr dflt t) (hist s) (stdin s)
                (shown s)) as H.
  now destruct (snd (read_loop k _ (hist s) (stdin s) (shown s))).
Qed.

Lemma get_from_settled (props : list (string * schema)) :
  Forall (fun p => ask (snd p) = None) props ->
  forall acc s, settled (snd (get_from props acc s)).
Proof.
  induction props as [|[k sch] more IH]; intros Hall acc s; [exact I|].
  inversion Hall; subst. cbn [get_from].
  pose proof (no_ask_settled k sch s H1) as Hs.
  destruct (getInput k sch s) as [s' [v| | |]]; cbn in *;
    try contradiction; [now apply IH | exact I].
Qed.

Ltac live_step H E sn vn tac :=
  rewrite get_from_cons in H; cbn [fst snd] in H;
  match type of H with
  | context [getInput ?k ?sch ?s] =>
      let Hx := fresh "Hx" in
      assert (Hx : settled (snd (getInput k sch s))) by tac;
      destruct (getInput k sch s) as [sn [vn| | |]] eqn:E;
      cbn [snd settled] in Hx; try contradiction; try discriminate H;
      clear Hx
  end.

Ltac live_skipped H E Hty sn vn :=
  let Hb := fresh "Hb" in
  live_step H E sn vn ltac:(apply (asked_when_settled _ _ _ _ _ _ Hty));
  apply (asked_when_Ok _ _ _ _ _ _ _ _ Hty) in E
    as [(_ & -> & ->) | (Hb & _)];
  [|discriminate Hb].

Ltac live_asked H E Hty sn vn Hh :=
  let Hb := fresh "Hb" in
  let x := fresh "x" in
  live_step H E sn vn ltac:(apply (asked_when_settled _ _ _ _ _ _ Hty));
  apply (asked_when_Ok _ _ _ _ _ _ _ _ Hty) in E
    as [(Hb & _) | (_ & Hh & x & ->)];
  [discriminate Hb|].

(** The type of a trigger is asked before the properties that look it up
    in the history: the trigger form never fails on that lookup. *)
Lemma triggerForm_never_crashes (nonce : string) (o : obj (obj string))
  (s s' : session) (m : string) :
  get (triggerForm nonce o) s <> (s', Crashed m).
Proof.
  unfold get, triggerForm. intros H.
  live_step H E1 s1 v1 ltac:(now apply no_ask_settled).
  live_step H E2 s2 ty ltac:(now apply no_ask_settled).
  apply type_Ok in E2 as [Hin Hty].
  assert (Hnow : history_value "type" (hist s2) = Some ty)
    by (rewrite Hty; apply type_is_newest).
  cbn in Hin. destruct Hin as [<- | [<- | [<- | [<- | []]]]].
  - live_asked H E3 Hnow s3 v3 Hh.
    assert (Hnow' : history_value "type" (hist s3) = Some "cron")
      by (rewrite Hh, Hty; reflexivity).
    live_skipped H E4 Hnow' s4 v4.
    live_skipped H E5 Hnow' s5 v5.
    live_skipped H E6 Hnow' s6 v6.
    live_step H E7 s7 v7 ltac:(now apply no_ask_settled).
  - live_skipped H E3 Hnow s3 v3.
    live_asked H E4 Hnow s4 v4 Hh.
    assert (Hnow' : history_value "type" (hist s4) = Some "message")
      by (rewrite Hh, Hty; reflexivity).
    live_skipped H E5 Hnow' s5 v5.
    live_skipped H E6 Hnow' s6 v6.
    live_step H E7 s7 v7 ltac:(now apply no_ask_settled).
  - live_skipped H E3 Hnow s3 v3.
    live_skipped H E4 Hnow s4 v4.
    live_asked H E5 Hnow s5 v5 Hh.
    assert (Hnow' : history_value "type" (hist s5) = Some "success")
      by (rewrite Hh, Hty; reflexivity).
    live_skipped H E6 Hnow' s6 v6.
    live_step H E7 s7 v7 ltac:(now apply no_ask_settled).
  - live_skipped H E3 Hnow s3 v3.
    live_skipped H E4 Hnow s4 v4.
    live_skipped H E5 Hnow s5 v5.
    live_asked H E6 Hnow s6 v6 Hh.
    live_step H E7 s7 v7 ltac:(now apply no_ask_settled).
Qed.

Lemma get_settled_cases {A : Type} (r : result A) :
  r <> OutOfFuel -> (forall m, r <> Crashed m) -> settled r.
Proof.
  intros H1 H2. destruct r as [a|m|m|]; cbn; auto.
  exact (H2 m eq_refl).
Qed.

Lemma jobForm_settled (nonce : string) (o : obj (obj string)) (s : session) :
  settled (snd (get (jobForm nonce o) s)).
Proof. apply get_from_settled. repeat constructor. Qed.

Lemma credentialForm_settled (nonce : string) (o : obj string)
  (s : session) :
  settled (snd (get (credentialForm nonce o) s)).
Proof. apply get_from_settled. repeat constructor. Qed.

Lemma triggerForm_settled (nonce : string) (o : obj (obj string))
  (s : session) :
  settled (snd (get (triggerForm nonce o) s)).
Proof.
  apply get_settled_cases.
  - apply get_from_not_cut.
  - intros m H. apply (triggerForm_never_crashes nonce o s
                         (fst (get (triggerForm nonce o) s)) m).
    rewrite <- H. now destruct (get (triggerForm nonce o) s).
Qed.

(** With fuel for every line of the input, a loop ends as a promise
    ends. *)
Ltac loop_settles step form_settled first_field :=
  let fuel := fresh "fuel" in
  let IH := fresh "IH" in
  intros fuel; induction fuel as [|fuel IH]; intros o s Hlt;
  [ lia
  | rewrite step;
    let Hs := fresh "Hs" in
    pose proof (form_settled o s) as Hs;
    let E := fresh "E" in
    destruct (get _ s) as [s' [answers| | |]] eqn:E; cbn zeta;
    cbn [snd settled] in Hs |- *; try contradiction; try exact I;
    assert (List.length (stdin s') < List.length (stdin s))
      by (eapply get_shorter with (sch := first_field o);
          [reflexivity | exact E]);
    destruct (String.eqb _ "y"); [apply IH; lia | exact I] ].

Lemma addJob_settled (nonce : string) :
  forall fuel o s,
    List.length (stdin s) < fuel -> settled (snd (addJob nonce fuel o s)).
Proof.
  loop_settles addJob_step (jobForm_settled nonce)
    (fun o : obj (obj string) => snd (name nonce o "Job")).
Qed.

Lemma addTrigger_settled (nonce : string) :
  forall fuel o s,
    List.length (stdin s) < fuel ->
    settled (snd (addTrigger nonce fuel o s)).
Proof.
  loop_settles addTrigger_step (triggerForm_settled nonce)
    (fun o : obj (obj string) => snd (name nonce o "Trigger")).
Qed.

Lemma addCredential_settled (nonce : string) :
  forall fuel o s,
    List.length (stdin s) < fuel ->
    settled (snd (addCredential nonce fuel o s)).
Proof.
  loop_settles addCredential_step (credentialForm_settled nonce)
    (fun o : obj string => snd (name nonce o "Credential")).
Qed.

(** Nothing that is shown while answers are read is a file write. *)
Lemma writes_app (t u : list event) :
  writes (t ++ u) = (writes t ++ writes u)%list.
Proof. apply filter_app. Qed.

Lemma read_loop_quiet (k : string) (sch : schema) (h : history)
  (lines : list string) :
  quiet sch ->
  forall acc,
    writes acc = [] ->
    writes (shown (fst (read_loop k sch h lines acc))) = [].
Proof.
  intros Hq. induction lines as [|l rest IH]; intros acc Hacc.
  - cbn. now rewrite writes_app, Hacc.
  - rewrite read_loop_cons. cbn zeta.
    assert (Hacc' : writes (acc ++ Asked (description sch)
                             :: fst (apply_before sch (effective sch l))) = []).
    { rewrite writes_app, Hacc. cbn. apply Hq. }
    destruct (validate sch _); cbn [fst shown]; [exact Hacc'|].
    apply IH. now rewrite writes_app, Hacc'.
Qed.

Lemma getInput_quiet (k : string) (sch : schema) (s : session) :
  quiet sch -> writes (shown s) = [] ->
  writes (shown (fst (getInput k sch s))) = [].
Proof.
  intros Hq Hs. unfold getInput.
  destruct (ask sch) as [f|]; [destruct (f (hist s)) as [[|]|]|];
    cbn [fst]; try exact Hs; now apply read_loop_quiet.
Qed.

Lemma get_from_quiet (props : list (string * schema)) :
  Forall (fun p => quiet (snd p)) props ->
  forall acc s,
    writes (shown s) = [] ->
    writes (shown (fst (get_from props acc s))) = [].
Proof.
  induction props as [|[k sch] more IH]; intros Hall acc s Hs; [exact Hs|].
  inversion Hall; subst. cbn [get_from].
  pose proof (getInput_quiet k sch s H1 Hs) as Hq.
  destruct (getInput k sch s) as [s' [v| | |]]; cbn [fst] in *;
    try exact Hq. now apply IH.
Qed.

Lemma no_hook_quiet (sch : schema) : before sch = None -> quiet sch.
Proof. intros Hb line. unfold apply_before. now rewrite Hb. Qed.

Lemma name_quiet (V : Type) (nonce : string) (arr : obj V) (thing : string) :
  quiet (snd (name nonce arr thing)).
Proof.
  intros line. cbn. unfold name_before.
  now destruct (includes " " line).
Qed.

Ltac form_is_quiet :=
  repeat (apply Forall_cons;
          [first [apply name_quiet | apply no_hook_quiet; reflexivity]|]);
  apply Forall_nil.

Ltac loop_is_quiet step form :=
  let fuel := fresh "fuel" in
  let IH := fresh "IH" in
  intros fuel; induction fuel as [|fuel IH]; intros o s Hs;
  [ exact Hs
  | rewrite step;
    let Hq := fresh "Hq" in
    assert (Hq : writes (shown (fst (get_from (form o) [] s))) = [])
      by (apply get_from_quiet; [form_is_quiet | exact Hs]);
    unfold get;
    destruct (get_from (form o) [] s) as [s' [answers| | |]];
    cbn [fst snd] in Hq |- *; try exact Hq;
    destruct (String.eqb _ "y");
    [ now apply IH
    | cbn [fst snd show shown]; now rewrite writes_app, Hq ] ].

Lemma addJob_quiet (nonce : string) :
  forall fuel o s,
    writes (shown s) = [] ->
    writes (shown (snd (fst (addJob nonce fuel o s)))) = [].
Proof. loop_is_quiet addJob_step (jobForm nonce). Qed.

Lemma addTrigger_quiet (nonce : string) :
  forall fuel o s,
    writes (shown s) = [] ->
    writes (shown (snd (fst (addTrigger nonce fuel o s)))) = [].
Proof. loop_is_quiet addTrigger_step (triggerForm nonce). Qed.

Lemma addCredential_quiet (nonce : string) :
  forall fuel o s,
    writes (shown s) = [] ->
    writes (shown (snd (fst (addCredential nonce fuel o s)))) = [].
Proof. loop_is_quiet addCredential_step (credentialForm nonce). Qed.

End RunFacts.

Section WholeRun.
Import Js Prompt Generator GeneratorExamples GeneratorShapes RunShapes.
Variables nonce_job nonce_trigger nonce_credential : string.
Variable dump :
  obj (obj string) -> obj string -> obj (obj string) -> string.
Variable readFileSync : string -> string + string.
Variable writeFileSync : string -> string -> option string.

Lemma finish_facts (st : state) (s : session) (r : result unit) :
  settled r ->
  final (finish st s r) = st
  /\ exit_code (finish st s r) = 0%Z
  /\ writes (trace (finish st s r)) = writes (shown s).
Proof.
  destruct r as [[]|m|m|]; cbn; try contradiction; intros _;
    repeat split; rewrite writes_app; cbn; now rewrite app_nil_r.
Qed.

Lemma one_question_facts (k : string) (sch : schema) (s : session) :
  ask sch = None -> quiet sch ->
  settled (snd (get [(k, sch)] s))
  /\ (writes (shown s) = [] -> writes (shown (fst (get [(k, sch)] s))) = []).
Proof.
  intros Ha Hq. split.
  - apply get_from_settled. now repeat constructor.
  - apply get_from_quiet. now repeat constructor.
Qed.

Lemma setDest_facts (s : session) :
  settled (snd (setDest s))
  /\ (writes (shown s) = [] -> writes (shown (fst (setDest s))) = []).
Proof.
  destruct (one_question_facts "dest" dest_field s eq_refl
              (no_hook_quiet dest_field eq_refl)) as [Hs Hq].
  unfold setDest. destruct (get [("dest", dest_field)] s) as [s' [a| | |]];
    cbn in *; auto.
Qed.

Lemma setType_facts (s : session) :
  settled (snd (setType s))
  /\ (writes (shown s) = [] -> writes (shown (fst (setType s))) = []).
Proof.
  destruct (one_question_facts "type" mode_field s eq_refl
              (no_hook_quiet mode_field eq_refl)) as [Hs Hq].
  unfold setType. destruct (get [("type", mode_field)] s) as [s' [a| | |]];
    cbn in *; auto.
Qed.

Lemma with_result_settled {A : Type} (r : result A) :
  settled r -> settled (with_result r).
Proof. now destruct r. Qed.

Lemma inline_credentials_settled (old : obj string) (keys : list string) :
  forall acc, settled (inline_credentials readFileSync old keys acc).
Proof.
  induction keys as [|k keys IH]; intros acc; cbn; [exact I|].
  destruct (obj_get k old); [|exact I].
  destruct (readFileSync s); [exact I | apply IH].
Qed.

(** The last step ends as a promise ends, and shows at most one write:
    the dump of the state it leaves, at the path of that state, when it
    is fulfilled. *)
Lemma assemble_facts (st : state) :
  let '(st', evs, r) := assemble dump readFileSync writeFileSync st in
  settled r
  /\ (writes evs = []
      \/ writes evs
         = [WriteFile (outputPath st')
              (dump (jobs st') (credentials st') (triggers st'))]).
Proof.
  unfold assemble.
  assert (Hw : forall st1,
             let (evs, r') := write_document dump writeFileSync st1 in
             settled r'
             /\ (writes evs = []
                 \/ writes evs
                    = [WriteFile (outputPath st1)
                         (dump (jobs st1) (credentials st1) (triggers st1))])).
  { intros st1. unfold write_document.
    destruct (writeFileSync _ _); cbn; auto. }
  destruct (String.eqb (type st) "monolith").
  - unfold monolith.
    pose proof (inline_credentials_settled (credentials st)
                  (obj_keys (credentials st)) []) as Hs.
    destruct (inline_credentials _ _ _ _) as [creds|m|m|];
      cbn in Hs; try contradiction; [|cbn; auto].
    unfold inline_jobs. cbn [jobs].
    destruct (obj_keys (jobs st)); [|cbn; auto].
    specialize (Hw {| outputPath := outputPath st; type := type st;
                      jobs := jobs st; triggers := triggers st;
                      credentials := creds |}).
    destruct (write_document _ _ _). exact Hw.
  - specialize (Hw st). destruct (write_document _ _ _). exact Hw.
Qed.

Lemma shown_show (evs : list event) (s : session) :
  writes (shown s) = [] -> writes evs = [] -> writes (shown (show evs s)) = [].
Proof. intros Hs He. cbn. now rewrite writes_app, Hs, He. Qed.

Lemma enough_fuel (s : session) : List.length (stdin s) < enough s.
Proof. unfold enough. lia. Qed.

(** The whole run: it always ends with exit code 0, and it writes at most
    one file, the dump of its final state at the output path. *)
Lemma main_anatomy (lines : list string) :
  let out :=
    main nonce_job nonce_trigger nonce_credential dump readFileSync
      writeFileSync lines in
  exit_code out = 0%Z
  /\ (writes (trace out) = []
      \/ writes (trace out)
         = [WriteFile (outputPath (final out))
              (dump (jobs (final out)) (credentials (final out))
                 (triggers (final out)))]).
Proof.
  cbn zeta. unfold main.
  set (s0 := {| stdin := lines; hist := []; shown := [Log welcome] |}).
  assert (H0 : writes (shown s0) = []) by reflexivity.
  destruct (setDest_facts s0) as [Hs1 Hq1]. specialize (Hq1 H0).
  destruct (setDest s0) as [s1 r1]. cbn [fst snd] in *.
  assert (Hfail : forall st s (r : result unit),
             settled r -> r <> Ok tt -> writes (shown s) = [] ->
             exit_code (finish st s r) = 0%Z
             /\ (writes (trace (finish st s r)) = []
                 \/ writes (trace (finish st s r))
                    = [WriteFile (outputPath (final (finish st s r)))
                         (dump (jobs (final (finish st s r)))
                            (credentials (final (finish st s r)))
                            (triggers (final (finish st s r))))])).
  { intros st s r Hr _ Hq.
    destruct (finish_facts st s r Hr) as (_ & He & Hw).
    split; [exact He | left; now rewrite Hw]. }
  destruct r1 as [dest|m|m|]; cbn in Hs1; try contradiction;
    [|apply Hfail; [exact I | discriminate | exact Hq1]].
  destruct (setType_facts s1) as [Hs2 Hq2]. specialize (Hq2 Hq1).
  destruct (setType s1) as [s2 r2]. cbn [fst snd] in *.
  destruct r2 as [yamlType|m|m|]; cbn in Hs2; try contradiction;
    [|apply Hfail; [exact I | discriminate | exact Hq2]].
  set (s2' := show [Log "Let's add some triggers."] s2).
  assert (Hq2' : writes (shown s2') = []) by (now apply shown_show).
  pose proof (addTrigger_settled nonce_trigger (enough s2') [] s2'
                (enough_fuel s2')) as Hs3.
  pose proof (addTrigger_quiet nonce_trigger (enough s2') [] s2' Hq2') as Hq3.
  destruct (addTrigger nonce_trigger (enough s2') [] s2') as [[ts s3] r3].
  cbn [fst snd] in *.
  destruct r3 as [[]|m|m|]; cbn in Hs3; try contradiction;
    [|apply Hfail; [exact I | discriminate | exact Hq3]].
  set (s3' := show [Log "Let's add some credentials."] s3).
  assert (Hq3' : writes (shown s3') = []) by (now apply shown_show).
  pose proof (addCredential_settled nonce_credential (enough s3') [] s3'
                (enough_fuel s3')) as Hs4.
  pose proof (addCredential_quiet nonce_credential (enough s3') [] s3' Hq3')
    as Hq4.
  destruct (addCredential nonce_credential (enough s3') [] s3')
    as [[cs s4] r4].
  cbn [fst snd] in *.
  destruct r4 as [[]|m|m|]; cbn in Hs4; try contradiction;
    [|apply Hfail; [exact I | discriminate | exact Hq4]].
  set (s4' := show [Log "Let's add your first job."] s4).
  assert (Hq4' : writes (shown s4') = []) by (now apply shown_show).
  pose proof (addJob_settled nonce_job (enough s4') [] s4'
                (enough_fuel s4')) as Hs5.
  pose proof (addJob_quiet nonce_job (enough s4') [] s4' Hq4') as Hq5.
  destruct (addJob nonce_job (enough s4') [] s4') as [[js s5] r5].
  cbn [fst snd] in *.
  destruct r5 as [[]|m|m|]; cbn in Hs5; try contradiction;
    [|apply Hfail; [exact I | discriminate | exact Hq5]].
  pose proof (assemble_facts
                {| outputPath := dest; type := yamlType; jobs := js;
                   triggers := ts; credentials := cs |}) as Ha.
  destruct (assemble _ _ _ _) as [[st' evs] r]. destruct Ha as [Hr Hw].
  destruct (finish_facts st' (show evs s5) r Hr) as (Hf & He & Ht).
  split; [exact He|]. rewrite Ht, Hf. cbn [show shown].
  rewrite writes_app, Hq5. cbn [app]. exact Hw.
Qed.

(** X17: whatever is typed and whatever the file system does, the
    process of the generator ends with exit code 0: every failure of the
    chain is caught and logged, and no lookup of the trigger type in the
    history can fail. *)
Theorem X17_generator_always_exits_0 (lines : list string) :
  exit_code
    (main nonce_job nonce_trigger nonce_credential dump readFileSync
       writeFileSync lines) = 0%Z.
Proof. apply (main_anatomy lines). Qed.

(** X18: a run writes at most one file, and only as its last step: when
    it writes, it writes the dump of the jobs, credentials and triggers
    of its final state to the output path that was answered. *)
Theorem X18_at_most_one_write (lines : list string) :
  let out :=
    main nonce_job nonce_trigger nonce_credential dump readFileSync
      writeFileSync lines in
  writes (trace out) = []
  \/ writes (trace out)
     = [WriteFile (outputPath (final out))
          (dump (jobs (final out)) (credentials (final out))
             (triggers (final out)))].
Proof. apply (main_anatomy lines). Qed.

(** X19: in monolith mode, once a job is stored, the last step never
    writes the document: it shows nothing and is rejected, with
    [expression is not defined] when every credential file could be
    read. *)
Theorem X19_monolith_with_a_job_writes_nothing (st : state) :
  type st = "monolith" -> jobs st <> [] ->
  exists st' m,
    assemble dump readFileSync writeFileSync st = (st', [], Rejected m)
    /\ (NoDup (obj_keys (credentials st)) ->
        (forall k p, In (k, p) (credentials st) ->
                     exists text, readFileSync p = inr text) ->
        m = "expression is not defined").
Proof.
  intros Hm Hj. unfold assemble, monolith. rewrite Hm.
  replace ("monolith" =? "monolith")%string with true by reflexivity.
  pose proof (inline_credentials_settled (credentials st)
                (obj_keys (credentials st)) []) as Hs.
  destruct (inline_credentials readFileSync (credentials st)
              (obj_keys (credentials st)) []) as [creds|m|m|] eqn:E;
    cbn in Hs; try contradiction.
  - unfold inline_jobs. cbn [jobs].
    destruct (jobs st) as [|j js]; [contradiction|]. cbn.
    eexists _, _. split; [reflexivity | auto].
  - exists st, m. split; [reflexivity|].
    intros Hnd Hread'. exfalso.
    assert (Hread : forall k p, In (k, p) (credentials st) ->
                                obj_get k (credentials st) = Some p
                                /\ exists text, readFileSync p = inr text)
      by (intros k p Hin; split; [now apply obj_get_first | eauto]).
    assert (Hno : forall (l acc : obj string),
               (forall k p, In (k, p) l ->
                            obj_get k (credentials st) = Some p
                            /\ exists text, readFileSync p = inr text) ->
               forall m',
                 inline_credentials readFileSync (credentials st)
                   (obj_keys l) acc <> Rejected m').
    { induction l as [|[k p] t IH]; intros acc Hl m'; cbn; [discriminate|].
      destruct (Hl k p) as (-> & text & ->); [now left|].
      apply IH. intros k' p' Hin. apply Hl. now right. }
    exact (Hno (credentials st) [] Hread m E).
Qed.

(** X20: outside monolith mode the last step reads no file and leaves
    the collected paths as they are: it dumps the three accumulators,
    shows the dump and the destination, and writes the dump to the output
    path; when that write fails, the step is rejected with the error of
    the write and [Done.] is not shown. *)
Theorem X20_uri_mode_writes_the_dump (st : state) :
  type st <> "monolith" ->
  let data := dump (jobs st) (credentials st) (triggers st) in
  let logs :=
    [Log "Project yaml configuration complete:"; Log data;
     Log ("Writing to " ++ outputPath st)] in
  assemble dump readFileSync writeFileSync st
  = match writeFileSync (outputPath st) data with
    | None =>
        (st, (logs ++ [WriteFile (outputPath st) data; Log "Done."])%list,
         Ok tt)
    | Some err => (st, logs, Rejected err)
    end.
Proof.
  intros Hm. unfold assemble, write_document.
  apply String.eqb_neq in Hm. rewrite Hm.
  now destruct (writeFileSync _ _).
Qed.

End WholeRun.

Section WholeRunWitnesses.
Import Js Prompt Generator GeneratorExamples GeneratorShapes RunShapes.

Lemma X19_monolith_with_a_job_writes_nothing_witness :
  exists st' m,
    assemble to_text one_file writable
      {| outputPath := "./out.yaml"; type := "monolith";
         jobs := [("sync", [("expression", "./sync.js")])];
         triggers := []; credentials := [("dhis2", "./cred.json")] |}
    = (st', [], Rejected m)
    /\ (NoDup (obj_keys [("dhis2", "./cred.json")]) ->
        (forall k p,
            In (k, p) [("dhis2", "./cred.json")] ->
            exists text, one_file p = inr text) ->
        m = "expression is not defined").
Proof.
  apply (X19_monolith_with_a_job_writes_nothing to_text one_file writable
           {| outputPath := "./out.yaml"; type := "monolith";
              jobs := [("sync", [("expression", "./sync.js")])];
              triggers := []; credentials := [("dhis2", "./cred.json")] |}).
  - reflexivity.
  - discriminate.
Defined.

Lemma X20_uri_mode_writes_the_dump_witness :
  assemble to_text one_file writable
    {| outputPath := "./out.yaml"; type := "uri"; jobs := [];
       triggers := []; credentials := [("dhis2", "./missing.json")] |}
  = ({| outputPath := "./out.yaml"; type := "uri"; jobs := [];
        triggers := []; credentials := [("dhis2", "./missing.json")] |},
     [Log "Project yaml configuration complete:"; Log "jobs: ...";
      Log "Writing to ./out.yaml"; WriteFile "./out.yaml" "jobs: ...";
      Log "Done."],
     Ok tt).
Proof.
  apply (X20_uri_mode_writes_the_dump to_text one_file writable
           {| outputPath := "./out.yaml"; type := "uri"; jobs := [];
              triggers := []; credentials := [("dhis2", "./missing.json")] |}).
  discriminate.
Defined.

End WholeRunWitnesses.

(* ===================================================================== *)
(** ** The credential files of a monolith run *)
(* ===================================================================== *)

Section MonolithRun.
Import Js Prompt Generator GeneratorExamples GeneratorShapes RunShapes.
Variables nonce_job nonce_trigger nonce_credential : string.
Variable dump :
  obj (obj string) -> obj string -> obj (obj string) -> string.
Variable readFileSync : string -> string + string.
Variable writeFileSync : string -> string -> option string.

(** When the five collecting steps are fulfilled, [main] is its last step
    on the collected state, followed by the handler of the chain. *)
Lemma main_collected (lines : list string) (st : state) (s : session) :
  collected nonce_job nonce_trigger nonce_credential lines = Some (st, s) ->
  main nonce_job nonce_trigger nonce_credential dump readFileSync
    writeFileSync lines
  = let '(st', evs, r) := assemble dump readFileSync writeFileSync st in
    finish st' (show evs s) r.
Proof.
  unfold collected, main.
  destruct (setDest _) as [s1 [dest|m|m|]]; try discriminate.
  destruct (setType s1) as [s2 [yamlType|m|m|]]; try discriminate.
  cbn zeta.
  destruct (addTrigger _ _ _ _) as [[ts s3] [[]|m|m|]]; try discriminate.
  destruct (addCredential _ _ _ _) as [[cs s4] [[]|m|m|]]; try discriminate.
  destruct (addJob _ _ _ _) as [[js s5] [[]|m|m|]]; try discriminate.
  intros H. inversion H; subst. reflexivity.
Qed.

(** What the collecting steps hand over: credentials with distinct names,
    none of them [__proto__], and a session that shows no write. *)
Lemma collected_facts (lines : list string) (st : state) (s : session) :
  collected nonce_job nonce_trigger nonce_credential lines = Some (st, s) ->
  NoDup (obj_keys (credentials st))
  /\ ~ In "__proto__" (obj_keys (credentials st))
  /\ writes (shown s) = [].
Proof.
  unfold collected.
  set (s0 := {| stdin := lines; hist := []; shown := [Log welcome] |}).
  assert (H0 : writes (shown s0) = []) by reflexivity.
  destruct (setDest_facts s0) as [_ Hq1]. specialize (Hq1 H0).
  destruct (setDest s0) as [s1 [dest|m|m|]]; try discriminate.
  cbn [fst] in Hq1.
  destruct (setType_facts s1) as [_ Hq2]. specialize (Hq2 Hq1).
  destruct (setType s1) as [s2 [yamlType|m|m|]]; try discriminate.
  cbn [fst] in Hq2. cbn zeta.
  set (s2' := show [Log "Let's add some triggers."] s2).
  assert (Hq2' : writes (shown s2') = []) by (now apply shown_show).
  pose proof (addTrigger_quiet nonce_trigger (enough s2') [] s2' Hq2') as Hq3.
  destruct (addTrigger nonce_trigger (enough s2') [] s2')
    as [[ts s3] [[]|m|m|]]; try discriminate.
  cbn [fst snd] in Hq3.
  set (s3' := show [Log "Let's add some credentials."] s3).
  assert (Hq3' : writes (shown s3') = []) by (now apply shown_show).
  pose proof (addCredential_quiet nonce_credential (enough s3') [] s3' Hq3')
    as Hq4.
  pose proof (addCredential_NoDup nonce_credential (enough s3') [] s3'
                (NoDup_nil _)) as Hnd.
  pose proof (addCredential_no_proto nonce_credential (enough s3') [] s3'
                (fun H : In "__proto__" [] => H)) as Hno.
  destruct (addCredential nonce_credential (enough s3') [] s3')
    as [[cs s4] [[]|m|m|]]; try discriminate.
  cbn [fst snd] in Hq4, Hnd, Hno.
  set (s4' := show [Log "Let's add your first job."] s4).
  assert (Hq4' : writes (shown s4') = []) by (now apply shown_show).
  pose proof (addJob_quiet nonce_job (enough s4') [] s4' Hq4') as Hq5.
  destruct (addJob nonce_job (enough s4') [] s4')
    as [[js s5] [[]|m|m|]]; try discriminate.
  cbn [fst snd] in Hq5.
  intros H. inversion H; subst. cbn [credentials]. auto.
Qed.

(** C4 (amended): a run in monolith mode whose collecting steps are all
    fulfilled.  When every credential file can be read, the run ends with
    each stored path replaced by the text [readFileSync] returns for it.
    When one of them cannot be read, the last step stops with the error
    [readFileSync] returned for a stored path: it shows and writes
    nothing, the credentials stay as collected, the handler that ends the
    chain logs that error after what was shown so far, no file is written
    in the whole run, and the exit code is 0. *)
Theorem C4_monolith_credentials
  (lines : list string) (st : state) (s : session) :
  collected nonce_job nonce_trigger nonce_credential lines = Some (st, s) ->
  type st = "monolith" ->
  let out :=
    main nonce_job nonce_trigger nonce_credential dump readFileSync
      writeFileSync lines in
  ((forall k p, In (k, p) (credentials st) ->
                exists text, readFileSync p = inr text) ->
   Forall2 (inlined readFileSync) (credentials st) (credentials (final out)))
  /\ ((exists k p err,
         In (k, p) (credentials st) /\ readFileSync p = inl err) ->
      exists k p err,
        In (k, p) (credentials st) /\ readFileSync p = inl err
        /\ assemble dump readFileSync writeFileSync st
           = (st, [], Rejected err)
        /\ out = {| final := st;
                    trace := (shown s ++ [failure_log err])%list;
                    exit_code := 0 |}
        /\ writes (trace out) = []).
Proof.
  intros Hc Hm out.
  destruct (collected_facts lines st s Hc) as (Hnd & Hno & Hq).
  assert (Hget : forall k p, In (k, p) (credentials st) ->
                             obj_get k (credentials st) = Some p)
    by (intros k p; now apply obj_get_first).
  unfold out. rewrite (main_collected lines st s Hc). split.
  - intros Hread.
    destruct (inline_credentials_ok readFileSync (credentials st)
                (credentials st) [] Hget Hnd Hno (fun _ _ => eq_refl) Hread)
      as (new & Hnew & Hall).
    unfold assemble, monolith. rewrite Hm, Hnew.
    replace ("monolith" =? "monolith")%string with true by reflexivity.
    cbn [app]. destruct (inline_jobs _) as [[]|m|m|]; cbn;
      try exact Hall.
    destruct (write_document _ _ _) as [evs [[]|m|m|]]; exact Hall.
  - intros Hbad.
    destruct (inline_credentials_fails readFileSync (credentials st)
                (credentials st) [] Hget Hbad)
      as (k & p & err & Hin & Herr & Hrun).
    exists k, p, err.
    assert (Ha : assemble dump readFileSync writeFileSync st
                 = (st, [], Rejected err)).
    { unfold assemble, monolith. rewrite Hm, Hrun. reflexivity. }
    rewrite Ha.
    repeat split; try assumption.
    + cbn. now rewrite app_nil_r.
    + cbn. rewrite app_nil_r, writes_app, Hq. reflexivity.
Qed.

End MonolithRun.

Section MonolithRunWitnesses.
Import Js Prompt Generator GeneratorExamples GeneratorShapes RunShapes.

Lemma C4_monolith_credentials_witness :
  let good :=
    ["./out.yaml"; "monolith";
     "nightly"; "cron"; "0 0 * * *"; "n";
     "dhis2"; "./cred.json"; "n";
     "sync"; "./sync.js"; EmptyString; "nightly"; "dhis2"; "n"] in
  let bad :=
    ["./out.yaml"; "monolith";
     "nightly"; "cron"; "0 0 * * *"; "n";
     "dhis2"; "./missing.json"; "n";
     "sync"; "./sync.js"; EmptyString; "nightly"; "dhis2"; "n"] in
  (exists st s,
      collected "shy" "coy" "wry" good = Some (st, s)
      /\ credentials st = [("dhis2", "./cred.json")]
      /\ Forall2 (inlined one_file) (credentials st)
           (credentials
              (final (main "shy" "coy" "wry" to_text one_file writable good))))
  /\ exists st s k p err,
       collected "shy" "coy" "wry" bad = Some (st, s)
       /\ In (k, p) (credentials st) /\ one_file p = inl err
       /\ assemble to_text one_file writable st = (st, [], Rejected err)
       /\ main "shy" "coy" "wry" to_text one_file writable bad
          = {| final := st;
               trace := (shown s ++ [failure_log err])%list;
               exit_code := 0 |}
       /\ writes (trace (main "shy" "coy" "wry" to_text one_file writable bad))
          = [].
Proof.
  intros good bad. split.
  - destruct (collected "shy" "coy" "wry" good) as [[st s]|] eqn:Hc;
      [|vm_compute in Hc; discriminate].
    assert (Hcs : credentials st = [("dhis2", "./cred.json")])
      by (vm_compute in Hc; inversion Hc; reflexivity).
    assert (Hm : type st = "monolith")
      by (vm_compute in Hc; inversion Hc; reflexivity).
    exists st, s. split; [reflexivity | split; [exact Hcs|]].
    apply (proj1 (C4_monolith_credentials "shy" "coy" "wry" to_text
                    one_file writable good st s Hc Hm)).
    rewrite Hcs. intros k p [Heq | []]. inversion Heq; subst.
    exists "{secret}". reflexivity.
  - destruct (collected "shy" "coy" "wry" bad) as [[st s]|] eqn:Hc;
      [|vm_compute in Hc; discriminate].
    assert (Hcs : credentials st = [("dhis2", "./missing.json")])
      by (vm_compute in Hc; inversion Hc; reflexivity).
    assert (Hm : type st = "monolith")
      by (vm_compute in Hc; inversion Hc; reflexivity).
    destruct (proj2 (C4_monolith_credentials "shy" "coy" "wry" to_text
                       one_file writable bad st s Hc Hm))
      as (k & p & err & H).
    + exists "dhis2", "./missing.json",
        "ENOENT: no such file or directory, open './missing.json'".
      rewrite Hcs. split; [now left | reflexivity].
    + exists st, s, k, p, err. split; [reflexivity | exact H].
Defined.

End MonolithRunWitnesses.
